(** * The Tronity vehicle adapter (vehicle/tronity.go)

    A shallow embedding of the [api.Vehicle] implementation for the Tronity
    API: the constructor [NewTronityFromConfig], the token refresh
    [RefreshToken], the reads [SoC], [Status] and [Range] over the cached bulk
    getter, and the actions [StartCharge] and [StopCharge].

    Go values are modelled as follows.  A nil-able [error] is an
    [option error]; a pair of results [(x, err)] is a Rocq pair; an
    [interface{}] value is a tagged value [any] whose tag is its dynamic
    type; [float64] is a primitive float; [int], [int64], [time.Time] and
    [time.Duration] are integers in [Z].  Code that talks to the network, the
    clock or the cache threads a state of an abstract type [World]. *)

From Stdlib Require Import ZArith List String Ascii Bool Lia PrimFloat.
Import ListNotations.

Local Open Scope string_scope.
Local Open Scope Z_scope.

(** ** Packages the adapter imports *)

Module http.

(** net/http: [http.MethodPost] and [http.StatusMethodNotAllowed]. *)
Definition MethodPost : string := "POST".

Definition StatusMethodNotAllowed : Z := 405.

(** The part of [http.Response] the adapter looks at. *)
Record Response : Type := { StatusCode : Z }.

End http.

(** Go's [error] values: a [request.StatusError], which carries the
    unsuccessful response, or any other error, known by its message
    ([errors.New], transport and decoding failures). *)
Inductive error : Type :=
| StatusError (resp : http.Response)
| errorString (msg : string).

Module errors.

Definition New (msg : string) : error := errorString msg.

End errors.

Module request.

(** Modelled from the spec: [request.ResponseError] lives in util/request,
    which is not among the sources.  The spec has every response that is not
    2xx be an error; the error is the [StatusError] of that response. *)
Definition ResponseError (resp : http.Response) : option error :=
  if (http.StatusCode resp <? 200) || (300 <=? http.StatusCode resp)
  then Some (StatusError resp)
  else None.

(** Modelled from the spec: [StatusError.HasStatus] lives in util/request,
    which is not among the sources.  It tells whether the response the error
    carries has the given status code. *)
Definition HasStatus (resp : http.Response) (code : Z) : bool :=
  http.StatusCode resp =? code.

(** A JSON object with string members, in the order of the struct's fields;
    the keys are the fields' json tags. *)
Definition JSON : Type := list (string * string).

(** What [request.New] builds: method, address, body and headers. *)
Record Request : Type := {
  Method : string;
  URL : string;
  Body : JSON;
  Header : list (string * string)
}.

(** A [request.Helper]: its client's transport is the plain one of
    [request.NewHelper] ([None]) or an [oauth2.Transport] over a token source
    of type [TS]. *)
Record Helper (TS : Type) : Type := { Transport : option TS }.

Arguments Transport {TS} _.

Definition NewHelper {TS : Type} : Helper TS := {| Transport := None |}.

End request.

Module oauth2.

(** golang.org/x/oauth2, a library outside the repository: the fields of
    [Endpoint], [Config] and [Token] the adapter reads or writes. *)
Record Endpoint : Type := { AuthURL : string; TokenURL : string }.

Record Config : Type := {
  ClientID : string;
  ClientSecret : string;
  Endpoint_ : Endpoint
}.

(** [Expiry] counts nanoseconds from Go's zero time, so [0] is the zero
    [time.Time], for which [IsZero] holds. *)
Record Token : Type := {
  AccessToken : string;
  RefreshToken : string;
  Expiry : Z
}.

(** [&oauth2.Token{}] *)
Definition zeroToken : Token :=
  {| AccessToken := ""; RefreshToken := ""; Expiry := 0 |}.

(** The library's [defaultExpiryDelta], ten seconds. *)
Definition expiryDelta : Z := 10 * 1000000000.

(** [Token.expired]: a token without expiry never expires; otherwise it is
    expired once the clock has passed its expiry less [expiryDelta]. *)
Definition expired (t : Token) (now : Z) : bool :=
  if Expiry t =? 0 then false else Expiry t - expiryDelta <? now.

(** [Token.Valid] *)
Definition Valid (t : Token) (now : Z) : bool :=
  negb (AccessToken t =? "")%string && negb (expired t now).

(** What the token source of [Config.TokenSource] does when asked for a
    token: hand out the token it holds while that is valid, and otherwise
    turn to its refresher, which exchanges the refresh token the source was
    seeded with for a new token, and fails without a request when that
    refresh token is empty. *)
Inductive Decision : Type :=
| UseToken (t : Token)
| Exchange (refresh_token : string)
| Fail (err : error).

Definition reuseTokenSource_Token (t : Token) (now : Z) : Decision :=
  if Valid t now then UseToken t
  else if (RefreshToken t =? "")%string
  then Fail (errors.New "oauth2: token expired and refresh token is not set")
  else Exchange (RefreshToken t).

End oauth2.

Module api.

(** Modelled from the spec: [api.ChargeStatus] is declared in package api,
    which is not among the sources.  The spec's enumeration is
    disconnected ([StatusA]), connected and not charging ([StatusB]) and
    charging ([StatusC]). *)
Inductive ChargeStatus : Type := StatusA | StatusB | StatusC.

Definition ChargeStatus_eqb (a b : ChargeStatus) : bool :=
  match a, b with
  | StatusA, StatusA | StatusB, StatusB | StatusC, StatusC => true
  | _, _ => false
  end.

End api.

Module tronity.

(** Modelled from the spec: the types of package vehicle/tronity are not
    among the sources.  A [Vehicle] of the list-vehicles answer has the two
    string fields the constructor reads. *)
Record Vehicle : Type := { ID : string; VIN : string }.

(** Modelled from the spec: the bulk snapshot has a [float64] level (what
    [SoC] returns as it is), a numeric range, whose type [R] the sources do
    not show, and a charging-state string. *)
Record Bulk (R : Type) : Type := {
  Level : float;
  Range : R;
  Charging : string
}.

Arguments Level {R} _.
Arguments Range {R} _.
Arguments Charging {R} _.

End tronity.

(** ** strings.ToUpper *)

(** [strings.ToUpper] first runs over the bytes of the string: [isASCII]
    tells that none is [utf8.RuneSelf] (128) or more, [hasLower] that one is
    a letter from a to z. *)
Fixpoint isASCII (s : string) : bool :=
  match s with
  | EmptyString => true
  | String c s' => (nat_of_ascii c <? 128)%nat && isASCII s'
  end.

Definition is_lower (c : ascii) : bool :=
  ((97 <=? nat_of_ascii c) && (nat_of_ascii c <=? 122))%nat.

Fixpoint hasLower (s : string) : bool :=
  match s with
  | EmptyString => false
  | String c s' => is_lower c || hasLower s'
  end.

(** The loop over an ASCII string with a lower-case letter: such a letter
    loses 32, the difference of ['a'] and ['A']; every other byte stays. *)
Definition upper_byte (c : ascii) : ascii :=
  if is_lower c then ascii_of_nat (nat_of_ascii c - 32) else c.

Fixpoint upper_ASCII (s : string) : string :=
  match s with
  | EmptyString => EmptyString
  | String c s' => String (upper_byte c) (upper_ASCII s')
  end.

(** ** State passing *)

Definition M (World A : Type) : Type := World -> A * World.

Definition ret {World A : Type} (a : A) : M World A := fun w => (a, w).

Definition bind {World A B : Type} (m : M World A) (k : A -> M World B) :
  M World B :=
  fun w => let (a, w') := m w in k a w'.

Notation "x <- m ;; k" := (bind m (fun x => k))
  (at level 61, m at next level, right associativity).

Notation "' p <- m ;; k" := (bind m (fun x => let 'p := x in k))
  (at level 61, p pattern, m at next level, right associativity).

(** ** The adapter's data *)

(** [interface{}]: nil, or a value with its dynamic type.  [tronity.Bulk]
    and [*tronity.Bulk] are different dynamic types. *)
Inductive any (R : Type) : Type :=
| any_nil
| any_Bulk (b : tronity.Bulk R)
| any_BulkPtr (b : tronity.Bulk R)
| any_string (s : string)
| any_float64 (f : float)
| any_int64 (z : Z).

Arguments any_nil {R}.
Arguments any_Bulk {R} _.
Arguments any_BulkPtr {R} _.
Arguments any_string {R} _.
Arguments any_float64 {R} _.
Arguments any_int64 {R} _.

(** The type assertion [res.(tronity.Bulk)] in its two-result form: the
    value when the dynamic type is [tronity.Bulk], and not ok otherwise. *)
Definition assert_Bulk {R : Type} (res : any R) : option (tronity.Bulk R) :=
  match res with
  | any_Bulk b => Some b
  | _ => None
  end.

(** The token source behind the authenticated transport.  In the app flow
    it is [oauth.RefreshTokenSource(token, v)], whose refresher [v] acts
    through [RefreshToken], which reads [v.oc]; in the code flow it is
    [oc.TokenSource(ctx, t)]. *)
Inductive TokenSource : Type :=
| RefreshTokenSource (token : oauth2.Token) (refresher : oauth2.Config)
| ConfigTokenSource (conf : oauth2.Config) (t : oauth2.Token).

(** [ClientCredentials] and [Tokens] of package vehicle. *)
Record ClientCredentials : Type := { ID : string; Secret : string }.

Record Tokens : Type := { Access : string; Refresh : string }.

(** The struct [cc] the configuration is decoded into. *)
Record Config : Type := {
  Credentials : ClientCredentials;
  Tokens_ : Tokens;
  VIN : string;
  Cache : Z
}.

(** The [Tronity] struct.  The embedded vehicle settings and the logger take
    no part in what follows and are left out; the embedded [request.Helper]
    is kept with its transport. *)
Record Tronity (World R : Type) : Type := {
  Helper : request.Helper TokenSource;
  oc : oauth2.Config;
  vid : string;
  bulkG : M World (any R * option error)
}.

Arguments Helper {World R} _.
Arguments oc {World R} _.
Arguments vid {World R} _.
Arguments bulkG {World R} _.

(** ** What the adapter calls and does not define

    The constants of the sibling packages, the conversion of the range, the
    HTTP helpers, the configuration decoder, the validation of credentials
    and tokens, the sponsor check, the OAuth2 configuration, the clock and
    the cache are taken as they come.  [Other] is the type of the raw
    configuration map. *)
Record Env (World R Other : Type) : Type := {
  (* tronity.URI, vehicle.interval, request.JSONEncoding *)
  URI : string;
  interval : Z;
  JSONEncoding : list (string * string);
  (* the conversion int64(res.Range) *)
  int64 : R -> Z;
  (* strings.Map(unicode.ToUpper, s): what strings.ToUpper does with a
     string that has a byte outside ASCII *)
  Map_ToUpper : string -> string;
  (* Helper.GetJSON into a tronity.Vehicles (its Data) and a tronity.Bulk *)
  GetJSON_Vehicles :
    request.Helper TokenSource -> string ->
    M World (list tronity.Vehicle * option error);
  GetJSON_Bulk :
    request.Helper TokenSource -> string ->
    M World (tronity.Bulk R * option error);
  (* Client.Post(uri, contentType, nil): a response or an error *)
  Post :
    request.Helper TokenSource -> string -> string ->
    M World (http.Response + error);
  (* the error of http.NewRequest for a method and an address, if any *)
  NewRequest : string -> string -> option error;
  (* Helper.DoJSON into an oauth2.Token *)
  DoJSON :
    request.Helper TokenSource -> request.Request ->
    M World (oauth2.Token * option error);
  (* util.DecodeOther(other, &cc) *)
  DecodeOther : Other -> Config -> Config * option error;
  (* ClientCredentials.Error and Tokens.Error *)
  Credentials_Error : ClientCredentials -> option error;
  Tokens_Error : Tokens -> option error;
  (* sponsor.IsAuthorized *)
  IsAuthorized : World -> bool;
  (* tronity.OAuth2Config(id, secret) *)
  OAuth2Config : string -> string -> oauth2.Config + error;
  (* time.Now *)
  Now : World -> Z;
  (* provider.NewCached(g, cache).InterfaceGetter() *)
  NewCached :
    M World (any R * option error) -> Z -> M World (any R * option error)
}.

Arguments URI {World R Other} _.
Arguments interval {World R Other} _.
Arguments JSONEncoding {World R Other} _.
Arguments int64 {World R Other} _ _.
Arguments Map_ToUpper {World R Other} _ _.
Arguments GetJSON_Vehicles {World R Other} _ _ _ _.
Arguments GetJSON_Bulk {World R Other} _ _ _ _.
Arguments Post {World R Other} _ _ _ _ _.
Arguments NewRequest {World R Other} _ _ _.
Arguments DoJSON {World R Other} _ _ _ _.
Arguments DecodeOther {World R Other} _ _ _.
Arguments Credentials_Error {World R Other} _ _.
Arguments Tokens_Error {World R Other} _ _.
Arguments IsAuthorized {World R Other} _ _.
Arguments OAuth2Config {World R Other} _ _ _.
Arguments Now {World R Other} _ _.
Arguments NewCached {World R Other} _ _ _ _.

(** ** The adapter's functions *)

Section Methods.

Context {World R Other : Type} (env : Env World R Other).

(** [v.vid] and [v.bulkG] before the constructor assigns them: the empty
    string and a nil func.  The constructor never calls the nil func, and
    hands out no adapter that still has it. *)
Definition nil_getter : M World (any R * option error) :=
  ret (any_nil, None).

Definition with_Transport (v : Tronity World R) (ts : TokenSource) :
  Tronity World R :=
  {| Helper := {| request.Transport := Some ts |};
     oc := oc v; vid := vid v; bulkG := bulkG v |}.

Definition with_vid (v : Tronity World R) (id : string) : Tronity World R :=
  {| Helper := Helper v; oc := oc v; vid := id; bulkG := bulkG v |}.

Definition with_bulkG (v : Tronity World R)
  (g : M World (any R * option error)) : Tronity World R :=
  {| Helper := Helper v; oc := oc v; vid := vid v; bulkG := g |}.

(** [vehicles] implements the vehicles api. *)
Definition vehicles (v : Tronity World R) :
  M World (list tronity.Vehicle * option error) :=
  let uri := URI env ++ "/v1/vehicles" in
  GetJSON_Vehicles env (Helper v) uri.

(** [bulk] implements the bulk api; its result is a [tronity.Bulk] held in
    an [interface{}]. *)
Definition bulk (v : Tronity World R) : M World (any R * option error) :=
  let uri := URI env ++ "/v1/vehicles/" ++ vid v ++ "/bulk" in
  '(res, err) <- GetJSON_Bulk env (Helper v) uri ;;
  ret (any_Bulk res, err).

(** [SoC] implements the api.Vehicle interface. *)
Definition SoC (v : Tronity World R) : M World (float * option error) :=
  '(res, err) <- bulkG v ;;
  match assert_Bulk res, err with
  | Some res, None => ret (tronity.Level res, None)
  | _, _ => ret (0%float, err)
  end.

(** [Status] implements the api.ChargeState interface. *)
Definition Status (v : Tronity World R) :
  M World (api.ChargeStatus * option error) :=
  let status := api.StatusA in
  '(res, err) <- bulkG v ;;
  let status :=
    match assert_Bulk res, err with
    | Some res, None =>
        if (tronity.Charging res =? "Charging")%string
        then api.StatusC
        else status
    | _, _ => status
    end in
  ret (status, err).

(** [Range] implements the api.VehicleRange interface. *)
Definition Range (v : Tronity World R) : M World (Z * option error) :=
  '(res, err) <- bulkG v ;;
  match assert_Bulk res, err with
  | Some res, None => ret (int64 env (tronity.Range res), None)
  | _, _ => ret (0, err)
  end.

(** [post]: the response's status becomes the error when the request went
    through; a [StatusError] with HTTP 405 is ignored. *)
Definition post (v : Tronity World R) (uri : string) : M World (option error) :=
  r <- Post env (Helper v) uri "" ;;
  let err :=
    match r with
    | inl resp => request.ResponseError resp
    | inr err => Some err
    end in
  let err :=
    match err with
    | Some (StatusError resp) =>
        if request.HasStatus resp http.StatusMethodNotAllowed
        then None
        else err
    | _ => err
    end in
  ret err.

(** [StartCharge] implements the api.VehicleStartCharge interface. *)
Definition StartCharge (v : Tronity World R) : M World (option error) :=
  let uri := URI env ++ "/v1/vehicles/" ++ vid v ++ "/charge_start" in
  post v uri.

(** [StopCharge] implements the api.VehicleStopCharge interface. *)
Definition StopCharge (v : Tronity World R) : M World (option error) :=
  let uri := URI env ++ "/v1/vehicles/" ++ vid v ++ "/charge_stop" in
  post v uri.

(** The anonymous struct [data] of [RefreshToken], marshalled: its three
    fields under their json tags. *)
Definition token_request_data (v : Tronity World R) : request.JSON :=
  [ ("client_id", oauth2.ClientID (oc v));
    ("client_secret", oauth2.ClientSecret (oc v));
    ("grant_type", "app") ].

(** [request.New(http.MethodPost, TokenURL, MarshalJSON(data), JSONEncoding)] *)
Definition token_request (v : Tronity World R) : request.Request :=
  {| request.Method := http.MethodPost;
     request.URL := oauth2.TokenURL (oauth2.Endpoint_ (oc v));
     request.Body := token_request_data v;
     request.Header := JSONEncoding env |}.

(** [RefreshToken] performs token refresh by logging in with app context.
    The result is the pair of Go: no token when the request cannot be
    built, and otherwise the token [DoJSON] decoded into, with its error. *)
Definition RefreshToken (v : Tronity World R) (_ : oauth2.Token) :
  M World (option oauth2.Token * option error) :=
  let req := token_request v in
  match NewRequest env (request.Method req) (request.URL req) with
  | Some err => ret (None, Some err)
  | None =>
      '(token, err) <- DoJSON env request.NewHelper req ;;
      ret (Some token, err)
  end.

(** [strings.ToUpper]: a string of ASCII bytes comes back as it is when it
    has no lower-case letter, and with its lower-case letters in upper case
    otherwise; a string with any other byte goes through
    [strings.Map(unicode.ToUpper, s)]. *)
Definition ToUpper (s : string) : string :=
  if isASCII s
  then if hasLower s then upper_ASCII s else s
  else Map_ToUpper env s.

(** Lines 101 to 109: the vehicle id the constructor settles on, from the
    configured VIN and the vehicles listed; [""] when it settles on none. *)
Definition select_vid (VIN : string) (vehicles : list tronity.Vehicle) :
  string :=
  if (VIN =? "")%string && (List.length vehicles =? 1)%nat
  then
    match vehicles with
    | vehicle :: _ => tronity.ID vehicle
    | [] => ""
    end
  else
    fold_left
      (fun id vehicle =>
         if (tronity.VIN vehicle =? ToUpper VIN)%string
         then tronity.ID vehicle
         else id)
      vehicles "".

(** The token source of lines 77 to 88: the app flow without tokens, the
    code flow with the configured tokens and the present time as expiry. *)
Definition token_source (cc : Config) (conf : oauth2.Config) (now : Z) :
  TokenSource :=
  match Tokens_Error env (Tokens_ cc) with
  | Some _ => RefreshTokenSource oauth2.zeroToken conf
  | None =>
      ConfigTokenSource conf
        {| oauth2.AccessToken := Access (Tokens_ cc);
           oauth2.RefreshToken := Refresh (Tokens_ cc);
           oauth2.Expiry := now |}
  end.

(** The configuration before decoding: every field zero but the cache. *)
Definition default_config : Config :=
  {| Credentials := {| ID := ""; Secret := "" |};
     Tokens_ := {| Access := ""; Refresh := "" |};
     VIN := "";
     Cache := interval env |}.

(** [NewTronityFromConfig] creates a new Tronity vehicle.  The result is
    the pair of Go: an adapter or nil, and an error or nil. *)
Definition NewTronityFromConfig (other : Other) :
  M World (option (Tronity World R) * option error) :=
  fun w =>
    let (cc, err) := DecodeOther env other default_config in
    match err with
    | Some err => ((None, Some err), w)
    | None =>
    match Credentials_Error env (Credentials cc) with
    | Some err => ((None, Some err), w)
    | None =>
    if negb (IsAuthorized env w)
    then ((None,
           Some (errors.New
             "tronity requires evcc sponsorship, register at https://cloud.evcc.io")),
          w)
    else
    match OAuth2Config env (ID (Credentials cc))
            (Secret (Credentials cc)) with
    | inr err => ((None, Some err), w)
    | inl conf =>
    let v :=
      {| Helper := request.NewHelper; oc := conf;
         vid := ""; bulkG := nil_getter |} in
    let ts := token_source cc conf (Now env w) in
    let v := with_Transport v ts in
    let '((listed, err), w') := vehicles v w in
    match err with
    | Some err => ((None, Some err), w')
    | None =>
    let v := with_vid v (select_vid (VIN cc) listed) in
    if (vid v =? "")%string
    then ((None, Some (errors.New "vin not found")), w')
    else
      let v := with_bulkG v (NewCached env (bulk v) (Cache cc)) in
      ((Some v, None), w')
    end end end end.

End Methods.

(** The adapter as it stands after line 94: configuration and authenticated
    transport, no vehicle id and no getter yet.  [vehicles] is called on
    it. *)
Definition authenticated {World R Other : Type} (env : Env World R Other)
  (cc : Config) (conf : oauth2.Config) (now : Z) : Tronity World R :=
  with_Transport
    {| Helper := request.NewHelper; oc := conf;
       vid := ""; bulkG := nil_getter |}
    (token_source env cc conf now).

(** The listed vehicles whose VIN is [strings.ToUpper] of the configured
    one: the vehicles the loop of lines 104 to 108 takes the id from. *)
Definition matching {World R Other : Type} (env : Env World R Other)
  (VIN : string) (vehicles : list tronity.Vehicle) : list tronity.Vehicle :=
  filter
    (fun vehicle => (tronity.VIN vehicle =? ToUpper env VIN)%string)
    vehicles.

(** The token of lines 83 to 87, which seeds the token source of the code
    flow: the configured tokens, and the present time as expiry. *)
Definition stored_token (cc : Config) (now : Z) : oauth2.Token :=
  {| oauth2.AccessToken := Access (Tokens_ cc);
     oauth2.RefreshToken := Refresh (Tokens_ cc);
     oauth2.Expiry := now |}.

(** ** The cached accessor of package provider *)

Module provider.

Local Open Scope list_scope.

Section Cached.

Variables Value Caller : Type.

(** Modelled from the spec: [provider.NewCached] is not among the sources.
    What a fetch, and so a [get], comes back with: a value or an error. *)
Inductive Outcome : Type :=
| Ok (v : Value)
| Err (e : error).

(** Modelled from the spec: the cache entry of the spec's data model, the
    last fetched value with its time, both absent before the first
    successful fetch, and the time to live. *)
Record CacheEntry : Type := {
  value : option Value;
  fetchedAt : option Z;
  ttl : Z
}.

(** Modelled from the spec: the accessor is its cache entry and at most one
    call in flight, which owns the callers waiting on it.  Two ghost fields
    record the history: how often [fetch] was invoked, and what each [get]
    returned, oldest first. *)
Record Accessor : Type := {
  entry : CacheEntry;
  inflight : option (list Caller);
  fetches : nat;
  released : list (Caller * Outcome)
}.

(** Modelled from the spec: what can happen to an accessor that is shared
    by concurrent callers.  A caller enters [get] at some time, or the fetch
    in flight returns at some time. *)
Inductive Event : Type :=
| Get (c : Caller) (now : Z)
| Complete (o : Outcome) (now : Z).

(** Modelled from the spec: the fast path serves the stored value while
    [now - fetchedAt < ttl]. *)
Definition fresh (e : CacheEntry) (now : Z) : option Value :=
  match value e, fetchedAt e with
  | Some v, Some at_ => if now - at_ <? ttl e then Some v else None
  | _, _ => None
  end.

(** Modelled from the spec: section 4.2.  A [get] on the fast path returns
    at once.  On a miss it joins the fetch in flight, or, when there is
    none, invokes [fetch] and waits.  When the fetch returns, a value is
    stored with the time, an error leaves the entry as it was, and the
    outcome goes to every waiter. *)
Definition step (a : Accessor) (ev : Event) : Accessor :=
  match ev with
  | Get c now =>
      match fresh (entry a) now with
      | Some v =>
          {| entry := entry a; inflight := inflight a; fetches := fetches a;
             released := released a ++ [(c, Ok v)] |}
      | None =>
          match inflight a with
          | Some waiters =>
              {| entry := entry a; inflight := Some (waiters ++ [c]);
                 fetches := fetches a; released := released a |}
          | None =>
              {| entry := entry a; inflight := Some [c];
                 fetches := S (fetches a); released := released a |}
          end
      end
  | Complete o now =>
      match inflight a with
      | None => a
      | Some waiters =>
          {| entry :=
               match o with
               | Ok v =>
                   {| value := Some v; fetchedAt := Some now;
                      ttl := ttl (entry a) |}
               | Err _ => entry a
               end;
             inflight := None;
             fetches := fetches a;
             released := released a ++ map (fun c => (c, o)) waiters |}
      end
  end.

Definition run (a : Accessor) (events : list Event) : Accessor :=
  fold_left step events a.

(** Modelled from the spec: construction takes the time to live and does
    nothing else. *)
Definition NewCached (cache : Z) : Accessor :=
  {| entry := {| value := None; fetchedAt := None; ttl := cache |};
     inflight := None; fetches := 0; released := [] |}.

(** The [get] calls of the given callers, in the order of their arrival. *)
Definition arrivals (calls : list (Caller * Z)) : list Event :=
  map (fun call => Get (fst call) (snd call)) calls.

End Cached.

Arguments Ok {Value} _.
Arguments Err {Value} _.
Arguments value {Value} _.
Arguments fetchedAt {Value} _.
Arguments ttl {Value} _.
Arguments entry {Value Caller} _.
Arguments inflight {Value Caller} _.
Arguments fetches {Value Caller} _.
Arguments released {Value Caller} _.
Arguments Get {Value Caller} _ _.
Arguments Complete {Value Caller} _ _.
Arguments fresh {Value} _ _.
Arguments step {Value Caller} _ _.
Arguments run {Value Caller} _ _.
Arguments arrivals {Value Caller} _.

End provider.

(** The steps of the constructor before the vehicles are listed went
    through: the configuration decoded into [cc], the credentials are
    complete, the sponsor check passed, and the OAuth2 configuration is
    [conf]. *)
Definition reaches_listing {World R Other : Type} (env : Env World R Other)
  (other : Other) (w : World) (cc : Config) (conf : oauth2.Config) : Prop :=
  DecodeOther env other (default_config env) = (cc, None) /\
  Credentials_Error env (Credentials cc) = None /\
  IsAuthorized env w = true /\
  OAuth2Config env (ID (Credentials cc)) (Secret (Credentials cc))
    = inl conf.

(** The adapter the constructor returns once a vehicle id is settled: the
    id of line 102 or 106 and the cached getter of line 115 over [bulk]. *)
Definition assembled {World R Other : Type} (env : Env World R Other)
  (cc : Config) (conf : oauth2.Config) (now : Z)
  (listed : list tronity.Vehicle) : Tronity World R :=
  let v :=
    with_vid (authenticated env cc conf now)
      (select_vid env (VIN cc) listed) in
  with_bulkG v (NewCached env (bulk env v) (Cache cc)).

(** ** A small world to run the adapter in

    The world has no state.  The raw configuration is a [Config] that
    decodes to itself, the range is an integer, and the cache passes every
    call through.  Every string of this world is ASCII, so that
    [strings.Map] is never reached; it leaves a string alone here. *)

Module Scenario.

Definition charging : tronity.Bulk Z :=
  {| tronity.Level := 72.5%float; tronity.Range := 310;
     tronity.Charging := "Charging" |}.

Definition idle : tronity.Bulk Z :=
  {| tronity.Level := 74.0%float; tronity.Range := 318;
     tronity.Charging := "Idle" |}.

Definition conf (id secret : string) : oauth2.Config :=
  {| oauth2.ClientID := id;
     oauth2.ClientSecret := secret;
     oauth2.Endpoint_ :=
       {| oauth2.AuthURL := "https://api-eu.tronity.io/oauth/authorize";
          oauth2.TokenURL :=
            "https://api-eu.tronity.io/oauth/authentication" |} |}.

(** An adapter whose getter answers [res] and [err]. *)
Definition adapter (res : any Z) (err : option error) : Tronity unit Z :=
  {| Helper :=
       {| request.Transport :=
            Some (RefreshTokenSource oauth2.zeroToken (conf "id" "secret")) |};
     oc := conf "id" "secret";
     vid := "5f1a";
     bulkG := ret (res, err) |}.

Definition fresh_token : oauth2.Token :=
  {| oauth2.AccessToken := "new-access"; oauth2.RefreshToken := "";
     oauth2.Expiry := 63771152400 * 1000000000 |}.

Definition missing (what : string) (s : string) : option error :=
  if (s =? "")%string then Some (errors.New ("missing " ++ what)) else None.

(** The collaborators: upstream lists [listed], answers a bulk request with
    [snapshot] and [fetch_err], an action with status [code], and a token
    request with [fresh_token]. *)
Definition env (listed : list tronity.Vehicle) (snapshot : tronity.Bulk Z)
  (fetch_err : option error) (code : Z) : Env unit Z Config :=
  {| URI := "https://api-eu.tronity.io";
     interval := 15 * 60 * 1000000000;
     JSONEncoding :=
       [("Content-Type", "application/json"); ("Accept", "application/json")];
     int64 := fun z => z;
     Map_ToUpper := fun s => s;
     GetJSON_Vehicles := fun _ _ => ret (listed, None);
     GetJSON_Bulk := fun _ _ => ret (snapshot, fetch_err);
     Post := fun _ _ _ => ret (inl {| http.StatusCode := code |});
     NewRequest := fun _ _ => None;
     DoJSON := fun _ _ => ret (fresh_token, None);
     DecodeOther := fun other _ => (other, None);
     Credentials_Error :=
       fun c =>
         match missing "credentials id" (ID c) with
         | Some e => Some e
         | None => missing "credentials secret" (Secret c)
         end;
     Tokens_Error :=
       fun t =>
         match missing "access token" (Access t) with
         | Some e => Some e
         | None => missing "refresh token" (Refresh t)
         end;
     IsAuthorized := fun _ => true;
     OAuth2Config := fun id secret => inl (conf id secret);
     Now := fun _ => 63771148800 * 1000000000;
     NewCached := fun g _ => g |}.

(** A configuration with credentials, with or without tokens, and a VIN. *)
Definition config (tokens : Tokens) (vin : string) : Config :=
  {| Credentials := {| ID := "id"; Secret := "secret" |};
     Tokens_ := tokens;
     VIN := vin;
     Cache := 60 * 1000000000 |}.

Definition no_tokens : Tokens := {| Access := ""; Refresh := "" |}.

Definition stored_tokens : Tokens :=
  {| Access := "old-access"; Refresh := "old-refresh" |}.

Definition car (id VIN : string) : tronity.Vehicle :=
  {| tronity.ID := id; tronity.VIN := VIN |}.

End Scenario.

(** * Properties *)

(** ** The state monad *)

Lemma bind_run {World A B : Type} (m : M World A) (k : A -> M World B)
  (w w' : World) (a : A) :
  m w = (a, w') -> bind m k w = k a w'.
Proof. intros H. unfold bind. rewrite H. reflexivity. Qed.

(** ** The reads *)

Section Reads.

Context {World R : Type}.

Implicit Types (v : Tronity World R) (w : World) (res : any R).

(** [SoC] as a function of what the getter answers. *)
Lemma SoC_run v w res err w' :
  bulkG v w = ((res, err), w') ->
  SoC v w =
    (match assert_Bulk res, err with
     | Some b, None => (tronity.Level b, None)
     | _, _ => (0%float, err)
     end, w').
Proof.
  intros H. unfold SoC. rewrite (bind_run _ _ _ _ _ H).
  destruct (assert_Bulk res), err; reflexivity.
Qed.

(** [Status] as a function of what the getter answers. *)
Lemma Status_run v w res err w' :
  bulkG v w = ((res, err), w') ->
  Status v w =
    ((match assert_Bulk res, err with
      | Some b, None =>
          if (tronity.Charging b =? "Charging")%string
          then api.StatusC
          else api.StatusA
      | _, _ => api.StatusA
      end, err), w').
Proof.
  intros H. unfold Status. rewrite (bind_run _ _ _ _ _ H). reflexivity.
Qed.

(** [Range] as a function of what the getter answers. *)
Lemma Range_run {Other : Type} (env : Env World R Other) v w res err w' :
  bulkG v w = ((res, err), w') ->
  Range env v w =
    (match assert_Bulk res, err with
     | Some b, None => (int64 env (tronity.Range b), None)
     | _, _ => (0, err)
     end, w').
Proof.
  intros H. unfold Range. rewrite (bind_run _ _ _ _ _ H).
  destruct (assert_Bulk res), err; reflexivity.
Qed.

(** Whatever the getter answers, [Status] says disconnected or charging. *)
Lemma Status_A_or_C v w :
  fst (fst (Status v w)) = api.StatusA \/ fst (fst (Status v w)) = api.StatusC.
Proof.
  destruct (bulkG v w) as [[res err] w'] eqn:H.
  rewrite (Status_run _ _ _ _ _ H). cbn [fst].
  destruct (assert_Bulk res) as [b|], err; auto.
  destruct (tronity.Charging b =? "Charging")%string; auto.
Qed.

End Reads.

(** C1, as the code has it: for a snapshot the getter hands over without
    error, [Status] is charging when the charging-state string is
    ["Charging"] and disconnected for every other string.  The result is in
    the enumeration and is never connected-not-charging. *)
Theorem Status_of_snapshot (World R : Type) (v : Tronity World R)
  (w w' : World) (b : tronity.Bulk R) :
  bulkG v w = ((any_Bulk b, None), w') ->
  Status v w =
    ((if (tronity.Charging b =? "Charging")%string
      then api.StatusC else api.StatusA, None), w') /\
  In (fst (fst (Status v w))) [api.StatusA; api.StatusB; api.StatusC] /\
  fst (fst (Status v w)) <> api.StatusB.
Proof.
  intros H. rewrite (Status_run _ _ _ _ _ H). cbn [assert_Bulk fst].
  split; [reflexivity|].
  destruct (tronity.Charging b =? "Charging")%string; cbn; split;
    solve [ auto | discriminate ].
Qed.

(** The charging snapshot of the scenario reads as charging. *)
Lemma Status_of_snapshot_charging :
  Status (Scenario.adapter (any_Bulk Scenario.charging) None) tt
  = ((api.StatusC, None), tt).
Proof.
  exact (proj1 (Status_of_snapshot unit Z
                  (Scenario.adapter (any_Bulk Scenario.charging) None)
                  tt tt Scenario.charging eq_refl)).
Defined.

(** C1, as the claim has it, fails: for the snapshot with the state
    ["Idle"], [Status] is disconnected, which is not
    connected-not-charging. *)
Lemma Status_idle_is_disconnected :
  Status (Scenario.adapter (any_Bulk Scenario.idle) None) tt
  = ((api.StatusA, None), tt) /\
  api.StatusA <> api.StatusB.
Proof. split; [reflexivity | discriminate]. Qed.

(** C2: [Status] never leaves the enumeration, and it is disconnected, with
    the getter's error passed on, when the getter reports an error and when
    the snapshot's charging-state string is anything but ["Charging"], the
    missing (empty) string included. *)
Theorem Status_defaults_to_disconnected (World R : Type) (v : Tronity World R)
  (w w' : World) (res : any R) (err : option error) :
  bulkG v w = ((res, err), w') ->
  In (fst (fst (Status v w))) [api.StatusA; api.StatusB; api.StatusC] /\
  (err <> None -> Status v w = ((api.StatusA, err), w')) /\
  (forall b, res = any_Bulk b -> tronity.Charging b <> "Charging" ->
     Status v w = ((api.StatusA, err), w')) /\
  (forall b, res = any_Bulk b -> tronity.Charging b = "" ->
     Status v w = ((api.StatusA, err), w')).
Proof.
  intros H.
  assert (Hne : forall b, res = any_Bulk b ->
                  tronity.Charging b <> "Charging" ->
                  Status v w = ((api.StatusA, err), w')).
  { intros b -> Hb. rewrite (Status_run _ _ _ _ _ H). cbn [assert_Bulk].
    destruct (String.eqb_spec (tronity.Charging b) "Charging") as [E|_];
      [contradiction|].
    destruct err; reflexivity. }
  repeat split.
  - destruct (Status_A_or_C v w) as [E|E]; rewrite E; cbn; auto.
  - intros He. rewrite (Status_run _ _ _ _ _ H).
    destruct err; [|contradiction]. destruct (assert_Bulk res); reflexivity.
  - exact Hne.
  - intros b Hres Hb. apply (Hne b Hres). rewrite Hb. discriminate.
Qed.

(** A getter that reports an error, even next to a charging snapshot. *)
Lemma Status_defaults_to_disconnected_on_error :
  Status (Scenario.adapter (any_Bulk Scenario.charging)
            (Some (errors.New "unexpected status: 503"))) tt
  = ((api.StatusA, Some (errors.New "unexpected status: 503")), tt).
Proof.
  refine (proj1 (proj2 (Status_defaults_to_disconnected unit Z
                          (Scenario.adapter (any_Bulk Scenario.charging)
                             (Some (errors.New "unexpected status: 503")))
                          tt tt _ _ eq_refl)) _).
  discriminate.
Defined.

(** C6: when the getter reports an error, [SoC] is [0] with that error; when
    it hands over a snapshot without error, [SoC] is the snapshot's level
    without error. *)
Theorem SoC_error_or_level (World R : Type) (v : Tronity World R)
  (w w' : World) (res : any R) (err : option error) :
  bulkG v w = ((res, err), w') ->
  (forall e, err = Some e -> SoC v w = ((0%float, Some e), w')) /\
  (forall b, err = None -> res = any_Bulk b ->
     SoC v w = ((tronity.Level b, None), w')).
Proof.
  intros H. rewrite (SoC_run _ _ _ _ _ H). split.
  - intros e ->. destruct (assert_Bulk res); reflexivity.
  - intros b -> ->. reflexivity.
Qed.

(** A getter that times out, and the charging snapshot of the scenario. *)
Lemma SoC_error_or_level_scenario :
  SoC (Scenario.adapter any_nil (Some (errors.New "timeout"))) tt
  = ((0%float, Some (errors.New "timeout")), tt) /\
  SoC (Scenario.adapter (any_Bulk Scenario.charging) None) tt
  = ((72.5%float, None), tt).
Proof.
  split.
  - exact (proj1 (SoC_error_or_level unit Z
                    (Scenario.adapter any_nil (Some (errors.New "timeout")))
                    tt tt _ _ eq_refl) _ eq_refl).
  - exact (proj2 (SoC_error_or_level unit Z
                    (Scenario.adapter (any_Bulk Scenario.charging) None)
                    tt tt _ _ eq_refl) _ eq_refl eq_refl).
Defined.

(** C10: when the getter reports no error and hands over something that is
    not a [tronity.Bulk], the three reads return their zero value, [0] or
    disconnected, and no error. *)
Theorem type_mismatch_is_absorbed (World R Other : Type)
  (env : Env World R Other) (v : Tronity World R) (w w' : World)
  (res : any R) :
  bulkG v w = ((res, None), w') ->
  assert_Bulk res = None ->
  SoC v w = ((0%float, None), w') /\
  Range env v w = ((0, None), w') /\
  Status v w = ((api.StatusA, None), w').
Proof.
  intros H Hres.
  rewrite (SoC_run _ _ _ _ _ H), (Range_run env _ _ _ _ _ H),
    (Status_run _ _ _ _ _ H), Hres.
  repeat split.
Qed.

(** A getter that hands over a [*tronity.Bulk] where a [tronity.Bulk] is
    expected. *)
Lemma type_mismatch_is_absorbed_for_a_pointer :
  SoC (Scenario.adapter (any_BulkPtr Scenario.charging) None) tt
  = ((0%float, None), tt) /\
  Range (Scenario.env [] Scenario.charging None 200)
    (Scenario.adapter (any_BulkPtr Scenario.charging) None) tt
  = ((0, None), tt) /\
  Status (Scenario.adapter (any_BulkPtr Scenario.charging) None) tt
  = ((api.StatusA, None), tt).
Proof.
  exact (type_mismatch_is_absorbed unit Z Config
           (Scenario.env [] Scenario.charging None 200)
           (Scenario.adapter (any_BulkPtr Scenario.charging) None)
           tt tt _ eq_refl eq_refl).
Defined.

(** ** The actions *)

(** [post] as a function of what the client's [Post] answers. *)
Lemma post_run {World R Other : Type} (env : Env World R Other)
  (v : Tronity World R) (uri : string) (w w' : World)
  (r : http.Response + error) :
  Post env (Helper v) uri "" w = (r, w') ->
  post env v uri w =
    (match r with
     | inl resp =>
         if (200 <=? http.StatusCode resp) && (http.StatusCode resp <? 300)
         then None
         else if http.StatusCode resp =? 405 then None
         else Some (StatusError resp)
     | inr (StatusError resp) =>
         if http.StatusCode resp =? 405 then None
         else Some (StatusError resp)
     | inr (errorString msg) => Some (errorString msg)
     end, w').
Proof.
  intros H. unfold post. rewrite (bind_run _ _ _ _ _ H). unfold ret.
  f_equal. destruct r as [resp|[resp|msg]]; try reflexivity.
  unfold request.ResponseError, request.HasStatus, http.StatusMethodNotAllowed.
  destruct (Z.ltb_spec (http.StatusCode resp) 200),
    (Z.leb_spec 300 (http.StatusCode resp)),
    (Z.leb_spec 200 (http.StatusCode resp)),
    (Z.ltb_spec (http.StatusCode resp) 300); cbn; try reflexivity; lia.
Qed.

(** C5: when upstream answers the POST of [StartCharge] or [StopCharge] with
    HTTP 405 the action returns no error; when it answers with any other
    status outside 200..299 the action returns an error, the [StatusError]
    of that response. *)
Theorem charge_actions_ignore_405 (World R Other : Type)
  (env : Env World R Other) (v : Tronity World R) (w w' : World)
  (resp : http.Response) :
  (Post env (Helper v) (URI env ++ "/v1/vehicles/" ++ vid v ++ "/charge_start")
     "" w = (inl resp, w') ->
   (http.StatusCode resp = 405 -> StartCharge env v w = (None, w')) /\
   (~ 200 <= http.StatusCode resp < 300 -> http.StatusCode resp <> 405 ->
    StartCharge env v w = (Some (StatusError resp), w'))) /\
  (Post env (Helper v) (URI env ++ "/v1/vehicles/" ++ vid v ++ "/charge_stop")
     "" w = (inl resp, w') ->
   (http.StatusCode resp = 405 -> StopCharge env v w = (None, w')) /\
   (~ 200 <= http.StatusCode resp < 300 -> http.StatusCode resp <> 405 ->
    StopCharge env v w = (Some (StatusError resp), w'))).
Proof.
  split; intros H; unfold StartCharge, StopCharge;
    rewrite (post_run env v _ w w' _ H); split.
  1,3: intros ->; reflexivity.
  all: intros H2xx H405;
    destruct (Z.leb_spec 200 (http.StatusCode resp)),
      (Z.ltb_spec (http.StatusCode resp) 300),
      (Z.eqb_spec (http.StatusCode resp) 405); cbn; try reflexivity; lia.
Qed.

(** Upstream answers 405 to the start and 500 to the stop. *)
Lemma charge_actions_ignore_405_scenario :
  StartCharge (Scenario.env [] Scenario.charging None 405)
    (Scenario.adapter any_nil None) tt = (None, tt) /\
  StopCharge (Scenario.env [] Scenario.charging None 500)
    (Scenario.adapter any_nil None) tt
  = (Some (StatusError {| http.StatusCode := 500 |}), tt).
Proof.
  split.
  - exact (proj1 (proj1 (charge_actions_ignore_405 unit Z Config
                           (Scenario.env [] Scenario.charging None 405)
                           (Scenario.adapter any_nil None) tt tt
                           {| http.StatusCode := 405 |}) eq_refl) eq_refl).
  - refine (proj2 (proj2 (charge_actions_ignore_405 unit Z Config
                            (Scenario.env [] Scenario.charging None 500)
                            (Scenario.adapter any_nil None) tt tt
                            {| http.StatusCode := 500 |}) eq_refl) _ _);
      cbn; lia.
Defined.

(** ** Upper case *)

Lemma upper_byte_idem (c : ascii) : upper_byte (upper_byte c) = upper_byte c.
Proof. destruct c as [[] [] [] [] [] [] [] []]; reflexivity. Qed.

Lemma upper_byte_not_lower (c : ascii) : is_lower (upper_byte c) = false.
Proof. destruct c as [[] [] [] [] [] [] [] []]; reflexivity. Qed.

Lemma upper_byte_ASCII (c : ascii) :
  (nat_of_ascii (upper_byte c) <? 128)%nat = (nat_of_ascii c <? 128)%nat.
Proof. destruct c as [[] [] [] [] [] [] [] []]; reflexivity. Qed.

Lemma upper_ASCII_idem (s : string) :
  upper_ASCII (upper_ASCII s) = upper_ASCII s.
Proof.
  induction s as [|c s IH]; cbn [upper_ASCII]; [reflexivity|].
  rewrite upper_byte_idem, IH. reflexivity.
Qed.

(** A string without lower-case letter is its own upper case: the two
    branches of the fast path agree. *)
Lemma upper_ASCII_fixed (s : string) : hasLower s = false -> upper_ASCII s = s.
Proof.
  induction s as [|c s IH]; cbn [hasLower upper_ASCII]; [reflexivity|].
  intros H. apply orb_false_elim in H. destruct H as [Hc Hs].
  unfold upper_byte. rewrite Hc, (IH Hs). reflexivity.
Qed.

Lemma hasLower_upper_ASCII (s : string) : hasLower (upper_ASCII s) = false.
Proof.
  induction s as [|c s IH]; cbn [hasLower upper_ASCII]; [reflexivity|].
  rewrite upper_byte_not_lower, IH. reflexivity.
Qed.

Lemma isASCII_upper_ASCII (s : string) : isASCII (upper_ASCII s) = isASCII s.
Proof.
  induction s as [|c s IH]; cbn [isASCII upper_ASCII]; [reflexivity|].
  rewrite upper_byte_ASCII, IH. reflexivity.
Qed.

Lemma upper_ASCII_empty (s : string) : upper_ASCII s = "" <-> s = "".
Proof.
  destruct s; cbn [upper_ASCII]; split; intros H;
    solve [ reflexivity | discriminate H ].
Qed.

Section UpperCase.

Context {World R Other : Type} (env : Env World R Other).

(** On an ASCII string [strings.ToUpper] is the fast path. *)
Lemma ToUpper_ASCII (s : string) :
  isASCII s = true -> ToUpper env s = upper_ASCII s.
Proof.
  intros H. unfold ToUpper. rewrite H.
  destruct (hasLower s) eqn:Hl; [reflexivity|].
  symmetry. apply upper_ASCII_fixed, Hl.
Qed.

Lemma ToUpper_idem (s : string) :
  isASCII s = true -> ToUpper env (ToUpper env s) = ToUpper env s.
Proof.
  intros H. rewrite (ToUpper_ASCII s H).
  rewrite ToUpper_ASCII by (rewrite isASCII_upper_ASCII; exact H).
  apply upper_ASCII_idem.
Qed.

Lemma ToUpper_nil : ToUpper env "" = "".
Proof. reflexivity. Qed.

Lemma ToUpper_empty (s : string) :
  isASCII s = true -> ToUpper env s = "" <-> s = "".
Proof.
  intros H. rewrite (ToUpper_ASCII s H). apply upper_ASCII_empty.
Qed.

End UpperCase.

(** ** The choice of the vehicle *)

Lemma last_cons {A : Type} (l : list A) (a d : A) :
  last (a :: l) d = last l a.
Proof.
  revert a d. induction l as [|b l IH]; intros a d; [reflexivity|].
  change (last (a :: b :: l) d) with (last (b :: l) d).
  rewrite (IH b d), (IH b a). reflexivity.
Qed.

(** The loop of lines 104 to 108 leaves the id of the last vehicle whose
    VIN is [U], and the id it started with when there is none. *)
Lemma select_loop_last (U : string) (vehicles : list tronity.Vehicle)
  (id0 : string) :
  fold_left
    (fun id vehicle =>
       if (tronity.VIN vehicle =? U)%string then tronity.ID vehicle else id)
    vehicles id0
  = last
      (map tronity.ID
         (filter (fun vehicle => (tronity.VIN vehicle =? U)%string) vehicles))
      id0.
Proof.
  revert id0. induction vehicles as [|x l IH]; intros id0;
    cbn [fold_left filter]; [reflexivity|].
  destruct (tronity.VIN x =? U)%string; rewrite IH; [|reflexivity].
  cbn [map]. symmetry. apply last_cons.
Qed.

Lemma select_vid_loop {World R Other : Type} (env : Env World R Other)
  (VIN : string) (vehicles : list tronity.Vehicle) :
  ~ (VIN = "" /\ List.length vehicles = 1%nat) ->
  select_vid env VIN vehicles
  = last (map tronity.ID (matching env VIN vehicles)) "".
Proof.
  intros H. unfold select_vid, matching.
  destruct (String.eqb_spec VIN "") as [E|E],
    (Nat.eqb_spec (List.length vehicles) 1) as [L|L]; cbn [andb];
    try apply select_loop_last.
  exfalso. apply H. split; assumption.
Qed.

Lemma select_vid_sole {World R Other : Type} (env : Env World R Other)
  (vehicle : tronity.Vehicle) :
  select_vid env "" [vehicle] = tronity.ID vehicle.
Proof. reflexivity. Qed.

(** ** The constructor *)

Section Construction.

Context {World R Other : Type} (env : Env World R Other).

Implicit Types (other : Other) (w : World) (cc : Config)
  (conf : oauth2.Config) (listed : list tronity.Vehicle).

(** The constructor from the listing of the vehicles on. *)
Lemma NewTronityFromConfig_listing other w cc conf listed err w' :
  reaches_listing env other w cc conf ->
  vehicles env (authenticated env cc conf (Now env w)) w
    = ((listed, err), w') ->
  NewTronityFromConfig env other w =
    (match err with
     | Some e => (None, Some e)
     | None =>
         if (select_vid env (VIN cc) listed =? "")%string
         then (None, Some (errors.New "vin not found"))
         else (Some (assembled env cc conf (Now env w) listed), None)
     end, w').
Proof.
  intros (Hd & Hc & Ha & Ho) Hv. unfold authenticated in Hv.
  unfold NewTronityFromConfig. rewrite Hd, Hc, Ha, Ho. cbn [negb].
  rewrite Hv. destruct err as [e|]; [reflexivity|].
  cbn [with_vid vid].
  destruct (select_vid env (VIN cc) listed =? "")%string; reflexivity.
Qed.

(** The constructor stops before the listing exactly when one of the first
    four steps fails, and then with an error and no adapter. *)
Lemma NewTronityFromConfig_before_listing other w :
  (exists cc conf, reaches_listing env other w cc conf) \/
  (exists e, NewTronityFromConfig env other w = ((None, Some e), w)).
Proof.
  unfold NewTronityFromConfig, reaches_listing.
  destruct (DecodeOther env other (default_config env)) as [cc [e|]] eqn:Hd;
    [right; eauto|].
  destruct (Credentials_Error env (Credentials cc)) as [e|] eqn:Hc;
    [right; eauto|].
  destruct (IsAuthorized env w) eqn:Ha; cbn [negb]; [|right; eauto].
  destruct (OAuth2Config env (ID (Credentials cc))
              (Secret (Credentials cc))) as [conf|e] eqn:Ho; [|right; eauto].
  left. exists cc, conf. auto.
Qed.

(** What a constructor that returned an adapter went through. *)
Lemma NewTronityFromConfig_Some other w v err w' :
  NewTronityFromConfig env other w = ((Some v, err), w') ->
  exists cc conf listed,
    reaches_listing env other w cc conf /\
    vehicles env (authenticated env cc conf (Now env w)) w
      = ((listed, None), w') /\
    select_vid env (VIN cc) listed <> "" /\
    v = assembled env cc conf (Now env w) listed /\
    err = None.
Proof.
  intros H.
  destruct (NewTronityFromConfig_before_listing other w)
    as [(cc & conf & Hr)|(e & He)]; [|rewrite He in H; discriminate H].
  destruct (vehicles env (authenticated env cc conf (Now env w)) w)
    as [[listed verr] w1] eqn:Hv.
  rewrite (NewTronityFromConfig_listing _ _ _ _ _ _ _ Hr Hv) in H.
  destruct verr as [e|]; [discriminate H|].
  destruct (String.eqb_spec (select_vid env (VIN cc) listed) "") as [E|E];
    [discriminate H|].
  injection H as <- <- <-.
  exists cc, conf, listed. split; [exact Hr|].
  repeat split; assumption || reflexivity.
Qed.

End Construction.

Lemma matching_In {World R Other : Type} (env : Env World R Other)
  (VIN : string) (vehicles : list tronity.Vehicle)
  (vehicle : tronity.Vehicle) :
  In vehicle (matching env VIN vehicles) <->
  In vehicle vehicles /\ tronity.VIN vehicle = ToUpper env VIN.
Proof.
  unfold matching. rewrite filter_In, String.eqb_eq. reflexivity.
Qed.

(** Two configured VINs with the same upper case, both empty or both not,
    settle on the same vehicle. *)
Lemma select_vid_same {World R Other : Type} (env : Env World R Other)
  (configured configured' : string) (upstream : list tronity.Vehicle) :
  ToUpper env configured' = ToUpper env configured ->
  (configured' = "" <-> configured = "") ->
  select_vid env configured' upstream = select_vid env configured upstream.
Proof.
  intros H Hempty. unfold select_vid. rewrite H.
  replace (configured' =? "")%string with (configured =? "")%string;
    [reflexivity|].
  destruct (String.eqb_spec configured "") as [E|E],
    (String.eqb_spec configured' "") as [E'|E']; try reflexivity; exfalso.
  - apply E', Hempty, E.
  - apply E, Hempty, E'.
Qed.

(** C4, as the code has it: the adapter returned has the id [select_vid]
    gives for the configured VIN and the vehicles listed.  Unless the list
    has one vehicle and no VIN is configured, that is the id of the last
    listed vehicle whose VIN equals [strings.ToUpper] of the configured VIN.
    Configured VINs that [strings.ToUpper] sends to the same string select
    the same vehicle, so that the letter case of an ASCII configured VIN
    does not matter.  An upstream VIN is compared as it is: what matches an
    ASCII configured VIN is ASCII and has no lower-case letter. *)
Theorem select_vid_upper_cases_the_configured_VIN (World R Other : Type)
  (env : Env World R Other) (configured : string)
  (upstream : list tronity.Vehicle) :
  (forall (other : Other) (w w' : World) (v : Tronity World R)
     (err : option error),
     NewTronityFromConfig env other w = ((Some v, err), w') ->
     exists cc conf listed,
       DecodeOther env other (default_config env) = (cc, None) /\
       vehicles env (authenticated env cc conf (Now env w)) w
         = ((listed, None), w') /\
       vid v = select_vid env (VIN cc) listed) /\
  (~ (configured = "" /\ List.length upstream = 1%nat) ->
   select_vid env configured upstream
   = last (map tronity.ID (matching env configured upstream)) "") /\
  (forall vehicle,
     In vehicle (matching env configured upstream) <->
     In vehicle upstream /\ tronity.VIN vehicle = ToUpper env configured) /\
  (forall configured',
     ToUpper env configured' = ToUpper env configured ->
     (configured' = "" <-> configured = "") ->
     select_vid env configured' upstream
     = select_vid env configured upstream) /\
  (isASCII configured = true ->
   ToUpper env configured = upper_ASCII configured /\
   (forall configured',
      isASCII configured' = true ->
      upper_ASCII configured' = upper_ASCII configured ->
      select_vid env configured' upstream
      = select_vid env configured upstream) /\
   (forall vehicle,
      In vehicle (matching env configured upstream) ->
      isASCII (tronity.VIN vehicle) = true /\
      hasLower (tronity.VIN vehicle) = false /\
      ToUpper env (tronity.VIN vehicle) = tronity.VIN vehicle)).
Proof.
  split; [|split; [|split; [|split]]].
  - intros other w w' v err H.
    destruct (NewTronityFromConfig_Some env _ _ _ _ _ H)
      as (cc & conf & listed & Hr & Hv & _ & -> & _).
    exists cc, conf, listed. split; [exact (proj1 Hr)|].
    split; [exact Hv|reflexivity].
  - apply select_vid_loop.
  - apply matching_In.
  - intros configured'. apply select_vid_same.
  - intros Hascii. split; [exact (ToUpper_ASCII env _ Hascii)|]. split.
    + intros configured' Hascii' H. apply select_vid_same.
      * rewrite (ToUpper_ASCII env _ Hascii), (ToUpper_ASCII env _ Hascii').
        exact H.
      * rewrite <- (upper_ASCII_empty configured'),
          <- (upper_ASCII_empty configured), H. reflexivity.
    + intros vehicle H. apply matching_In in H. destruct H as [_ HV].
      rewrite HV, (ToUpper_ASCII env _ Hascii).
      split; [rewrite isASCII_upper_ASCII; exact Hascii|].
      split; [apply hasLower_upper_ASCII|].
      rewrite ToUpper_ASCII by (rewrite isASCII_upper_ASCII; exact Hascii).
      apply upper_ASCII_idem.
Qed.

(** A VIN configured in lower case selects what it selects in upper case. *)
Lemma select_vid_upper_cases_the_configured_VIN_scenario :
  select_vid (Scenario.env [] Scenario.charging None 200)
    "wvwzzz1jzxw000001"
    [Scenario.car "a" "WVWZZZ1JZXW000001";
     Scenario.car "b" "5YJ3E1EA7KF000316"]
  = select_vid (Scenario.env [] Scenario.charging None 200)
      "WVWZZZ1JZXW000001"
      [Scenario.car "a" "WVWZZZ1JZXW000001";
       Scenario.car "b" "5YJ3E1EA7KF000316"].
Proof.
  exact (proj1 (proj2 (proj2 (proj2 (proj2 (proj2
           (select_vid_upper_cases_the_configured_VIN unit Z Config
              (Scenario.env [] Scenario.charging None 200)
              "WVWZZZ1JZXW000001"
              [Scenario.car "a" "WVWZZZ1JZXW000001";
               Scenario.car "b" "5YJ3E1EA7KF000316"])))) eq_refl))
           "wvwzzz1jzxw000001" eq_refl eq_refl).
Defined.

(** C4, as the claim has it, fails: an upstream VIN in lower case is not
    matched by the very same configured VIN, and construction ends with
    "vin not found". *)
Lemma lower_case_upstream_VIN_is_not_matched :
  select_vid
    (Scenario.env [Scenario.car "a" "wvwzzz1jzxw000001"]
       Scenario.charging None 200)
    "wvwzzz1jzxw000001" [Scenario.car "a" "wvwzzz1jzxw000001"] = "" /\
  NewTronityFromConfig
    (Scenario.env [Scenario.car "a" "wvwzzz1jzxw000001"]
       Scenario.charging None 200)
    (Scenario.config Scenario.no_tokens "wvwzzz1jzxw000001") tt
  = ((None, Some (errors.New "vin not found")), tt).
Proof. split; reflexivity. Qed.

(** C7, as the code has it: the constructor returns an error and no
    adapter, or an adapter with a vehicle id and no error.  Each failing
    step (decoding, credentials, sponsor check, OAuth2 configuration,
    listing) ends it with an error and no adapter, and so does an empty
    vehicle id after the choice of lines 101 to 109, which is what happens
    when no listed vehicle matches.  With a vehicle id the adapter is
    returned. *)
Theorem construction_is_all_or_nothing (World R Other : Type)
  (env : Env World R Other) (other : Other) (w : World) :
  ((exists e, fst (NewTronityFromConfig env other w) = (None, Some e)) \/
   (exists v, fst (NewTronityFromConfig env other w) = (Some v, None) /\
              vid v <> "")) /\
  (forall cc e,
     DecodeOther env other (default_config env) = (cc, Some e) ->
     NewTronityFromConfig env other w = ((None, Some e), w)) /\
  (forall cc e,
     DecodeOther env other (default_config env) = (cc, None) ->
     Credentials_Error env (Credentials cc) = Some e ->
     NewTronityFromConfig env other w = ((None, Some e), w)) /\
  (forall cc,
     DecodeOther env other (default_config env) = (cc, None) ->
     Credentials_Error env (Credentials cc) = None ->
     IsAuthorized env w = false ->
     exists e, NewTronityFromConfig env other w = ((None, Some e), w)) /\
  (forall cc e,
     DecodeOther env other (default_config env) = (cc, None) ->
     Credentials_Error env (Credentials cc) = None ->
     IsAuthorized env w = true ->
     OAuth2Config env (ID (Credentials cc)) (Secret (Credentials cc))
       = inr e ->
     NewTronityFromConfig env other w = ((None, Some e), w)) /\
  (forall cc conf listed err w',
     reaches_listing env other w cc conf ->
     vehicles env (authenticated env cc conf (Now env w)) w
       = ((listed, err), w') ->
     (forall e, err = Some e ->
        NewTronityFromConfig env other w = ((None, Some e), w')) /\
     (err = None -> select_vid env (VIN cc) listed = "" ->
        NewTronityFromConfig env other w
        = ((None, Some (errors.New "vin not found")), w')) /\
     (err = None ->
        ~ (VIN cc = "" /\ List.length listed = 1%nat) ->
        matching env (VIN cc) listed = [] ->
        NewTronityFromConfig env other w
        = ((None, Some (errors.New "vin not found")), w')) /\
     (err = None -> select_vid env (VIN cc) listed <> "" ->
        NewTronityFromConfig env other w
        = ((Some (assembled env cc conf (Now env w) listed), None), w'))).
Proof.
  split; [|split; [|split; [|split; [|split]]]].
  - destruct (NewTronityFromConfig_before_listing env other w)
      as [(cc & conf & Hr)|(e & He)];
      [|left; exists e; rewrite He; reflexivity].
    destruct (vehicles env (authenticated env cc conf (Now env w)) w)
      as [[listed err] w'] eqn:Hv.
    rewrite (NewTronityFromConfig_listing env _ _ _ _ _ _ _ Hr Hv). cbn [fst].
    destruct err as [e|]; [left; eauto|].
    destruct (String.eqb_spec (select_vid env (VIN cc) listed) "") as [E|E];
      [left; eauto|].
    right. eexists. split; [reflexivity|exact E].
  - intros cc e Hd. unfold NewTronityFromConfig. rewrite Hd. reflexivity.
  - intros cc e Hd Hc. unfold NewTronityFromConfig. rewrite Hd, Hc. reflexivity.
  - intros cc Hd Hc Ha. unfold NewTronityFromConfig. rewrite Hd, Hc, Ha.
    cbn [negb]. eauto.
  - intros cc e Hd Hc Ha Ho. unfold NewTronityFromConfig.
    rewrite Hd, Hc, Ha, Ho. reflexivity.
  - intros cc conf listed err w' Hr Hv.
    rewrite (NewTronityFromConfig_listing env _ _ _ _ _ _ _ Hr Hv).
    assert (Hempty : err = None -> select_vid env (VIN cc) listed = "" ->
              (match err with
               | Some e => (None, Some e)
               | None =>
                   if (select_vid env (VIN cc) listed =? "")%string
                   then (None, Some (errors.New "vin not found"))
                   else (Some (assembled env cc conf (Now env w) listed), None)
               end, w')
              = ((None, Some (errors.New "vin not found")), w')).
    { intros -> ->. reflexivity. }
    split; [|split; [|split]].
    + intros e ->. reflexivity.
    + exact Hempty.
    + intros He Hsole Hnone. apply (Hempty He).
      rewrite (select_vid_loop env _ _ Hsole), Hnone. reflexivity.
    + intros -> Hid.
      destruct (String.eqb_spec (select_vid env (VIN cc) listed) "") as [E|E];
        [contradiction|reflexivity].
Qed.

(** The one listed vehicle does not carry the configured VIN. *)
Lemma construction_is_all_or_nothing_scenario :
  NewTronityFromConfig
    (Scenario.env [Scenario.car "a" "WVWZZZ1JZXW000001"]
       Scenario.charging None 200)
    (Scenario.config Scenario.no_tokens "5YJ3E1EA7KF000316") tt
  = ((None, Some (errors.New "vin not found")), tt).
Proof.
  destruct (construction_is_all_or_nothing unit Z Config
              (Scenario.env [Scenario.car "a" "WVWZZZ1JZXW000001"]
                 Scenario.charging None 200)
              (Scenario.config Scenario.no_tokens "5YJ3E1EA7KF000316") tt)
    as (_ & _ & _ & _ & _ & H).
  refine (proj1 (proj2 (proj2
            (H (Scenario.config Scenario.no_tokens "5YJ3E1EA7KF000316")
               (Scenario.conf "id" "secret")
               [Scenario.car "a" "WVWZZZ1JZXW000001"] None tt _ eq_refl)))
            eq_refl _ eq_refl).
  - repeat split.
  - intros [H' _]. discriminate H'.
Defined.

(** C7, as the claim has it, fails: two listed vehicles carry the
    configured VIN, so that no match is unique, and the constructor returns
    an adapter, for the second of them, and no error. *)
Lemma ambiguous_match_is_constructed :
  List.length
    (matching
       (Scenario.env
          [Scenario.car "a" "WVWZZZ1JZXW000001";
           Scenario.car "b" "WVWZZZ1JZXW000001"]
          Scenario.charging None 200)
       "WVWZZZ1JZXW000001"
       [Scenario.car "a" "WVWZZZ1JZXW000001";
        Scenario.car "b" "WVWZZZ1JZXW000001"]) = 2%nat /\
  option_map vid
    (fst (fst (NewTronityFromConfig
       (Scenario.env
          [Scenario.car "a" "WVWZZZ1JZXW000001";
           Scenario.car "b" "WVWZZZ1JZXW000001"]
          Scenario.charging None 200)
       (Scenario.config Scenario.no_tokens "WVWZZZ1JZXW000001") tt)))
  = Some "b" /\
  snd (fst (NewTronityFromConfig
       (Scenario.env
          [Scenario.car "a" "WVWZZZ1JZXW000001";
           Scenario.car "b" "WVWZZZ1JZXW000001"]
          Scenario.charging None 200)
       (Scenario.config Scenario.no_tokens "WVWZZZ1JZXW000001") tt))
  = None.
Proof. repeat split. Qed.

(** C8: with tokens in the configuration, construction lists the vehicles
    through a transport whose token source is the code flow's, seeded with
    the configured access and refresh tokens and with the time of
    construction as expiry: what that request answers decides the
    construction, and the adapter returned keeps that transport.  At any
    later time (any time less than ten seconds earlier, in fact) the seeded
    token is not valid, so the token source never hands out the configured
    access token as it is: it exchanges the configured refresh token, which
    the library refuses to do only for an empty refresh token. *)
Theorem stored_grant_token_is_expired (World R Other : Type)
  (env : Env World R Other) (other : Other) (w : World) (cc : Config) :
  DecodeOther env other (default_config env) = (cc, None) ->
  Tokens_Error env (Tokens_ cc) = None ->
  (forall conf listed err w',
     reaches_listing env other w cc conf ->
     GetJSON_Vehicles env
       {| request.Transport :=
            Some (ConfigTokenSource conf (stored_token cc (Now env w))) |}
       (URI env ++ "/v1/vehicles") w
     = ((listed, err), w') ->
     (forall e, err = Some e ->
        NewTronityFromConfig env other w = ((None, Some e), w')) /\
     (err = None -> select_vid env (VIN cc) listed = "" ->
        NewTronityFromConfig env other w
        = ((None, Some (errors.New "vin not found")), w')) /\
     (err = None -> select_vid env (VIN cc) listed <> "" ->
        exists v,
          NewTronityFromConfig env other w = ((Some v, None), w') /\
          Helper v
          = {| request.Transport :=
                 Some (ConfigTokenSource conf
                         (stored_token cc (Now env w))) |} /\
          oc v = conf /\
          vid v = select_vid env (VIN cc) listed)) /\
  (forall v err w',
     NewTronityFromConfig env other w = ((Some v, err), w') ->
     request.Transport (Helper v)
     = Some (ConfigTokenSource (oc v) (stored_token cc (Now env w)))) /\
  (forall later,
     Now env w <> 0 ->
     Now env w - oauth2.expiryDelta < later ->
     oauth2.Valid (stored_token cc (Now env w)) later = false /\
     (forall t,
        oauth2.reuseTokenSource_Token (stored_token cc (Now env w)) later
        <> oauth2.UseToken t) /\
     (Refresh (Tokens_ cc) <> "" ->
      oauth2.reuseTokenSource_Token (stored_token cc (Now env w)) later
      = oauth2.Exchange (Refresh (Tokens_ cc)))).
Proof.
  intros Hd Ht.
  assert (Hts : forall conf,
            Helper (authenticated env cc conf (Now env w))
            = {| request.Transport :=
                   Some (ConfigTokenSource conf
                           (stored_token cc (Now env w))) |}).
  { intros conf. cbn. unfold token_source. rewrite Ht. reflexivity. }
  split; [|split].
  - intros conf listed err w' Hr Hget.
    assert (Hv : vehicles env (authenticated env cc conf (Now env w)) w
                 = ((listed, err), w')).
    { unfold vehicles. rewrite Hts. exact Hget. }
    rewrite (NewTronityFromConfig_listing env _ _ _ _ _ _ _ Hr Hv).
    split; [|split].
    + intros e ->. reflexivity.
    + intros -> ->. reflexivity.
    + intros -> Hid.
      destruct (String.eqb_spec (select_vid env (VIN cc) listed) "") as [E|E];
        [contradiction|].
      eexists. split; [reflexivity|]. split; [exact (Hts conf)|].
      split; reflexivity.
  - intros v err w' H.
    destruct (NewTronityFromConfig_Some env _ _ _ _ _ H)
      as (cc' & conf & listed & Hr & _ & _ & -> & _).
    destruct Hr as (Hd' & _). rewrite Hd in Hd'. injection Hd' as <-.
    change (request.Transport
              (Helper (authenticated env cc conf (Now env w)))
            = Some (ConfigTokenSource conf (stored_token cc (Now env w)))).
    rewrite Hts. reflexivity.
  - intros later Hnow Hlater.
    assert (Hvalid : oauth2.Valid (stored_token cc (Now env w)) later = false).
    { unfold oauth2.Valid, oauth2.expired, stored_token.
      cbn [oauth2.Expiry oauth2.AccessToken].
      destruct (Z.eqb_spec (Now env w) 0) as [E|_]; [contradiction|].
      destruct (Z.ltb_spec (Now env w - oauth2.expiryDelta) later) as [_|L];
        [|lia].
      apply andb_false_r. }
    split; [exact Hvalid|].
    unfold oauth2.reuseTokenSource_Token. rewrite Hvalid.
    cbn [stored_token oauth2.RefreshToken]. split.
    + intros t. destruct (Refresh (Tokens_ cc) =? "")%string; discriminate.
    + intros Hne.
      destruct (String.eqb_spec (Refresh (Tokens_ cc)) "") as [E|_];
        [contradiction|reflexivity].
Qed.

(** Stored tokens and one listed vehicle: the adapter is returned with the
    transport the listing went through, and at the very instant of
    construction the stored access token is already refused. *)
Lemma stored_grant_token_is_expired_scenario :
  (exists v,
     NewTronityFromConfig
       (Scenario.env [Scenario.car "a" "WVWZZZ1JZXW000001"]
          Scenario.charging None 200)
       (Scenario.config Scenario.stored_tokens "") tt
     = ((Some v, None), tt) /\
     Helper v
     = {| request.Transport :=
            Some (ConfigTokenSource (Scenario.conf "id" "secret")
                    {| oauth2.AccessToken := "old-access";
                       oauth2.RefreshToken := "old-refresh";
                       oauth2.Expiry := 63771148800 * 1000000000 |}) |} /\
     oc v = Scenario.conf "id" "secret" /\
     vid v = "a") /\
  oauth2.reuseTokenSource_Token
    {| oauth2.AccessToken := "old-access";
       oauth2.RefreshToken := "old-refresh";
       oauth2.Expiry := 63771148800 * 1000000000 |}
    (63771148800 * 1000000000)
  = oauth2.Exchange "old-refresh".
Proof.
  destruct (stored_grant_token_is_expired unit Z Config
              (Scenario.env [Scenario.car "a" "WVWZZZ1JZXW000001"]
                 Scenario.charging None 200)
              (Scenario.config Scenario.stored_tokens "") tt
              (Scenario.config Scenario.stored_tokens "") eq_refl eq_refl)
    as (Hlist & _ & Huse).
  split.
  - refine (proj2 (proj2 (Hlist (Scenario.conf "id" "secret")
                            [Scenario.car "a" "WVWZZZ1JZXW000001"] None tt
                            _ eq_refl)) eq_refl _).
    + repeat split.
    + discriminate.
  - refine (proj2 (proj2 (Huse (63771148800 * 1000000000) _ _)) _).
    + discriminate.
    + reflexivity.
    + discriminate.
Defined.

(** ** The token refresh *)

(** C9: the request of [RefreshToken] is a POST to the token endpoint whose
    JSON body has the three members client_id, client_secret and
    grant_type, with the configured id and secret and the grant ["app"].
    When the request cannot be built the error is returned without a token;
    otherwise the request is handed to [DoJSON] once, and the token it
    decoded is returned together with its error, nil on success.  The id
    and the secret are those of [v.oc], which for an adapter the constructor
    returned is what [tronity.OAuth2Config] made of the configured
    credentials. *)
Theorem RefreshToken_posts_app_grant (World R Other : Type)
  (env : Env World R Other) (v : Tronity World R) (previous : oauth2.Token)
  (w : World) :
  request.Method (token_request env v) = "POST" /\
  request.URL (token_request env v)
  = oauth2.TokenURL (oauth2.Endpoint_ (oc v)) /\
  request.Body (token_request env v) =
    [ ("client_id", oauth2.ClientID (oc v));
      ("client_secret", oauth2.ClientSecret (oc v));
      ("grant_type", "app") ] /\
  (forall e,
     NewRequest env "POST" (oauth2.TokenURL (oauth2.Endpoint_ (oc v)))
     = Some e ->
     RefreshToken env v previous w = ((None, Some e), w)) /\
  (NewRequest env "POST" (oauth2.TokenURL (oauth2.Endpoint_ (oc v))) = None ->
   forall token err w',
     DoJSON env request.NewHelper (token_request env v) w
     = ((token, err), w') ->
     RefreshToken env v previous w = ((Some token, err), w')) /\
  (forall other w0 w1 err cc,
     NewTronityFromConfig env other w0 = ((Some v, err), w1) ->
     DecodeOther env other (default_config env) = (cc, None) ->
     OAuth2Config env (ID (Credentials cc)) (Secret (Credentials cc))
     = inl (oc v)).
Proof.
  split; [|split; [|split; [|split; [|split]]]]; try reflexivity.
  - intros e H. unfold RefreshToken.
    cbn [token_request request.Method request.URL].
    unfold http.MethodPost. rewrite H. reflexivity.
  - intros H token err w' Hdo. unfold RefreshToken.
    cbn [token_request request.Method request.URL].
    unfold http.MethodPost. rewrite H.
    rewrite (bind_run _ _ _ _ _ Hdo). reflexivity.
  - intros other w0 w1 err cc H Hd.
    destruct (NewTronityFromConfig_Some env _ _ _ _ _ H)
      as (cc' & conf & listed & (Hd' & _ & _ & Ho) & _ & _ & -> & _).
    rewrite Hd in Hd'. injection Hd' as <-. exact Ho.
Qed.

(** Upstream answers the token request with a fresh token. *)
Lemma RefreshToken_posts_app_grant_scenario :
  RefreshToken (Scenario.env [] Scenario.charging None 200)
    (Scenario.adapter any_nil None) oauth2.zeroToken tt
  = ((Some Scenario.fresh_token, None), tt).
Proof.
  exact (proj1 (proj2 (proj2 (proj2 (proj2
           (RefreshToken_posts_app_grant unit Z Config
              (Scenario.env [] Scenario.charging None 200)
              (Scenario.adapter any_nil None) oauth2.zeroToken tt)))))
           eq_refl _ _ _ eq_refl).
Defined.

(** ** The cached accessor *)

Section SingleFlight.

Import provider.

Local Open Scope list_scope.

Context {Value Caller : Type}.

Implicit Types (a : Accessor Value Caller) (calls : list (Caller * Z)).

Lemma run_app a (l1 l2 : list (Event Value Caller)) :
  run a (l1 ++ l2) = run (run a l1) l2.
Proof. apply fold_left_app. Qed.

(** Callers that miss the cache while a fetch is in flight queue up behind
    it, and nothing else changes. *)
Lemma arrivals_join calls : forall a waiters,
  inflight a = Some waiters ->
  Forall (fun call => fresh (entry a) (snd call) = None) calls ->
  run a (arrivals calls) =
    {| entry := entry a;
       inflight := Some (waiters ++ map fst calls);
       fetches := fetches a;
       released := released a |}.
Proof.
  induction calls as [|[c now] calls IH]; intros a waiters Hin Hmiss.
  - cbn. rewrite app_nil_r, <- Hin. destruct a; reflexivity.
  - inversion Hmiss as [|? ? Hc Hrest]; subst. cbn [snd] in Hc.
    cbn [arrivals map run fold_left step fst snd]. rewrite Hc, Hin.
    change (fold_left step (map (fun call => Get (fst call) (snd call)) calls)
              ?x) with (run x (arrivals calls)).
    rewrite (IH _ (waiters ++ [c])); [|reflexivity|exact Hrest].
    cbn [entry fetches released]. rewrite <- app_assoc. reflexivity.
Qed.

End SingleFlight.

(** C3, on the accessor of the spec: when callers, at least one, enter
    [get] while nothing fresh is cached and no fetch is in flight at the
    start, and the fetch returns after the last of them has entered, then
    [fetch] was invoked once, every caller is handed the outcome of that
    fetch, in the order of arrival, and no fetch is left in flight. *)
Theorem single_flight (Value Caller : Type)
  (a : provider.Accessor Value Caller) (calls : list (Caller * Z))
  (o : provider.Outcome Value) (done : Z) :
  provider.inflight a = None ->
  calls <> [] ->
  Forall (fun call => provider.fresh (provider.entry a) (snd call) = None)
    calls ->
  provider.fetches
    (provider.run a (provider.arrivals calls ++ [provider.Complete o done]))
  = S (provider.fetches a) /\
  provider.released
    (provider.run a (provider.arrivals calls ++ [provider.Complete o done]))
  = (provider.released a ++ map (fun call => (fst call, o)) calls)%list /\
  provider.inflight
    (provider.run a (provider.arrivals calls ++ [provider.Complete o done]))
  = None.
Proof.
  intros Hnone Hne Hmiss. rewrite run_app.
  destruct calls as [|[c now] calls]; [contradiction|].
  inversion Hmiss as [|? ? Hc Hrest]; subst. cbn [snd] in Hc.
  cbn [provider.arrivals map provider.run fold_left provider.step fst snd].
  rewrite Hc, Hnone.
  change (fold_left provider.step
            (map (fun call => provider.Get (fst call) (snd call)) calls) ?x)
    with (provider.run x (provider.arrivals calls)).
  rewrite (arrivals_join calls _ [c]); [|reflexivity|exact Hrest].
  cbn. rewrite map_map. repeat split.
Qed.

(** Three callers on an empty cache, one fetch, one snapshot for all. *)
Lemma single_flight_scenario :
  provider.fetches
    (provider.run (provider.NewCached (tronity.Bulk Z) nat (60 * 1000000000))
       [provider.Get 1%nat 0; provider.Get 2%nat 5; provider.Get 3%nat 7;
        provider.Complete (provider.Ok Scenario.charging) 9])
  = 1%nat /\
  provider.released
    (provider.run (provider.NewCached (tronity.Bulk Z) nat (60 * 1000000000))
       [provider.Get 1%nat 0; provider.Get 2%nat 5; provider.Get 3%nat 7;
        provider.Complete (provider.Ok Scenario.charging) 9])
  = [(1%nat, provider.Ok Scenario.charging);
     (2%nat, provider.Ok Scenario.charging);
     (3%nat, provider.Ok Scenario.charging)].
Proof.
  destruct (single_flight (tronity.Bulk Z) nat
              (provider.NewCached (tronity.Bulk Z) nat (60 * 1000000000))
              [(1%nat, 0); (2%nat, 5); (3%nat, 7)]
              (provider.Ok Scenario.charging) 9) as (Hf & Hr & _).
  - reflexivity.
  - discriminate.
  - repeat constructor.
  - split; [exact Hf|exact Hr].
Defined.

(** * Further properties of the adapter *)

(** ** The reads and the getter *)

(** X1: a read returns the error of the getter, be it nil or not, and
    leaves the world as the one call of the getter left it: [SoC], [Status]
    and [Range] neither swallow an error nor make one up. *)
Theorem reads_return_the_getter_error (World R Other : Type)
  (env : Env World R Other) (v : Tronity World R) (w : World) :
  (snd (fst (SoC v w)) = snd (fst (bulkG v w)) /\
   snd (SoC v w) = snd (bulkG v w)) /\
  (snd (fst (Status v w)) = snd (fst (bulkG v w)) /\
   snd (Status v w) = snd (bulkG v w)) /\
  (snd (fst (Range env v w)) = snd (fst (bulkG v w)) /\
   snd (Range env v w) = snd (bulkG v w)).
Proof.
  destruct (bulkG v w) as [[res err] w'] eqn:H.
  rewrite (SoC_run _ _ _ _ _ H), (Status_run _ _ _ _ _ H),
    (Range_run env _ _ _ _ _ H).
  destruct (assert_Bulk res), err; repeat split.
Qed.

(** X2: when the getter reports an error, [Range] is [0] with that error,
    whatever comes with the error; when it hands over a snapshot without
    error, [Range] is the snapshot's range converted to [int64], without
    error. *)
Theorem Range_error_or_range (World R Other : Type) (env : Env World R Other)
  (v : Tronity World R) (w w' : World) (res : any R) (err : option error) :
  bulkG v w = ((res, err), w') ->
  (forall e, err = Some e -> Range env v w = ((0, Some e), w')) /\
  (forall b, err = None -> res = any_Bulk b ->
     Range env v w = ((int64 env (tronity.Range b), None), w')).
Proof.
  intros H. rewrite (Range_run env _ _ _ _ _ H). split.
  - intros e ->. destruct (assert_Bulk res); reflexivity.
  - intros b -> ->. reflexivity.
Qed.

(** An error next to a snapshot, and the charging snapshot alone. *)
Lemma Range_error_or_range_scenario :
  Range (Scenario.env [] Scenario.charging None 200)
    (Scenario.adapter (any_Bulk Scenario.charging)
       (Some (errors.New "timeout"))) tt
  = ((0, Some (errors.New "timeout")), tt) /\
  Range (Scenario.env [] Scenario.charging None 200)
    (Scenario.adapter (any_Bulk Scenario.charging) None) tt
  = ((310, None), tt).
Proof.
  split.
  - exact (proj1 (Range_error_or_range unit Z Config
                    (Scenario.env [] Scenario.charging None 200)
                    (Scenario.adapter (any_Bulk Scenario.charging)
                       (Some (errors.New "timeout")))
                    tt tt _ _ eq_refl) _ eq_refl).
  - exact (proj2 (Range_error_or_range unit Z Config
                    (Scenario.env [] Scenario.charging None 200)
                    (Scenario.adapter (any_Bulk Scenario.charging) None)
                    tt tt _ _ eq_refl) _ eq_refl eq_refl).
Defined.

(** X3: [Status] is charging exactly when the getter hands over, without
    error, a [tronity.Bulk] whose charging-state string is ["Charging"],
    letter for letter.  Charging is never reported next to an error. *)
Theorem Status_charging_iff (World R : Type) (v : Tronity World R)
  (w : World) :
  (fst (fst (Status v w)) = api.StatusC <->
   exists b w',
     bulkG v w = ((any_Bulk b, None), w') /\
     tronity.Charging b = "Charging") /\
  (fst (fst (Status v w)) = api.StatusC -> snd (fst (Status v w)) = None).
Proof.
  destruct (bulkG v w) as [[res err] w'] eqn:H.
  rewrite (Status_run _ _ _ _ _ H). cbn [fst snd].
  assert (Hiff :
    match assert_Bulk res, err with
    | Some b, None =>
        if (tronity.Charging b =? "Charging")%string
        then api.StatusC else api.StatusA
    | _, _ => api.StatusA
    end = api.StatusC <->
    exists b w0,
      (res, err, w') = (any_Bulk b, None, w0) /\
      tronity.Charging b = "Charging").
  { split.
    - destruct res as [|b|b|s|f|z]; cbn [assert_Bulk]; try discriminate.
      destruct err as [e|]; [discriminate|].
      destruct (String.eqb_spec (tronity.Charging b) "Charging") as [E|E];
        [|discriminate].
      intros _. exists b, w'. split; [reflexivity|exact E].
    - intros (b & w0 & Heq & Hc). injection Heq as -> -> _.
      cbn [assert_Bulk]. rewrite Hc. reflexivity. }
  split; [exact Hiff|].
  intros Hc. apply Hiff in Hc. destruct Hc as (b & w0 & Heq & _).
  injection Heq as _ -> _. reflexivity.
Qed.

(** X4: the reads over the bulk api itself.  When the getter is [bulk] of
    an adapter, a read never meets a value of another type: it projects the
    snapshot decoded from the answer to
    [URI/v1/vehicles/<vid>/bulk] when the request went through, and drops
    whatever was decoded when it did not. *)
Theorem reads_over_bulk (World R Other : Type) (env : Env World R Other)
  (v u : Tronity World R) (w w' : World) (res : tronity.Bulk R)
  (err : option error) :
  bulkG v w = bulk env u w ->
  GetJSON_Bulk env (Helper u) (URI env ++ "/v1/vehicles/" ++ vid u ++ "/bulk") w
  = ((res, err), w') ->
  SoC v w =
    ((match err with None => tronity.Level res | Some _ => 0%float end, err),
     w') /\
  Range env v w =
    ((match err with
      | None => int64 env (tronity.Range res)
      | Some _ => 0
      end, err), w') /\
  Status v w =
    ((match err with
      | None =>
          if (tronity.Charging res =? "Charging")%string
          then api.StatusC else api.StatusA
      | Some _ => api.StatusA
      end, err), w').
Proof.
  intros Hg Hget.
  assert (H : bulkG v w = ((any_Bulk res, err), w')).
  { rewrite Hg. unfold bulk. rewrite (bind_run _ _ _ _ _ Hget). reflexivity. }
  rewrite (SoC_run _ _ _ _ _ H), (Range_run env _ _ _ _ _ H),
    (Status_run _ _ _ _ _ H).
  cbn [assert_Bulk]. destruct err; repeat split.
Qed.

(** Upstream answers the bulk request with the idle snapshot. *)
Lemma reads_over_bulk_scenario :
  SoC (Scenario.adapter (any_Bulk Scenario.idle) None) tt
  = ((74.0%float, None), tt) /\
  Range (Scenario.env [] Scenario.idle None 200)
    (Scenario.adapter (any_Bulk Scenario.idle) None) tt
  = ((318, None), tt) /\
  Status (Scenario.adapter (any_Bulk Scenario.idle) None) tt
  = ((api.StatusA, None), tt).
Proof.
  exact (reads_over_bulk unit Z Config
           (Scenario.env [] Scenario.idle None 200)
           (Scenario.adapter (any_Bulk Scenario.idle) None)
           (Scenario.adapter any_nil None)
           tt tt Scenario.idle None eq_refl eq_refl).
Defined.

(** ** The actions *)

(** X5: [post] makes the one request and returns no error exactly when
    upstream answered with a status in 200..299 or with 405, or when the
    request failed with a [StatusError] of status 405.  An error it returns
    is the one the request failed with, or the [StatusError] of the
    response: every other failure of the transport reaches the caller as it
    is. *)
Theorem post_returns_no_error_iff (World R Other : Type)
  (env : Env World R Other) (v : Tronity World R) (uri : string)
  (w w' : World) (r : http.Response + error) :
  Post env (Helper v) uri "" w = (r, w') ->
  snd (post env v uri w) = w' /\
  (fst (post env v uri w) = None <->
   match r with
   | inl resp =>
       200 <= http.StatusCode resp < 300 \/ http.StatusCode resp = 405
   | inr (StatusError resp) => http.StatusCode resp = 405
   | inr (errorString _) => False
   end) /\
  (forall e, fst (post env v uri w) = Some e ->
     r = inr e \/ exists resp, r = inl resp /\ e = StatusError resp).
Proof.
  intros H. rewrite (post_run env v uri w w' r H). cbn [fst snd].
  split; [reflexivity|].
  destruct r as [resp|[resp|msg]].
  - destruct (Z.leb_spec 200 (http.StatusCode resp)) as [H1|H1],
      (Z.ltb_spec (http.StatusCode resp) 300) as [H2|H2],
      (Z.eqb_spec (http.StatusCode resp) 405) as [H3|H3]; cbn [andb];
      (split; [split; [intros E; try discriminate E; lia
                      |intros E; try reflexivity; lia]
              |intros e E; try discriminate E;
               injection E as <-; right; exists resp; split; reflexivity]).
  - destruct (Z.eqb_spec (http.StatusCode resp) 405) as [H3|H3];
      (split; [split; [intros E; try discriminate E; assumption
                      |intros E; try reflexivity; contradiction]
              |intros e E; try discriminate E;
               injection E as <-; left; reflexivity]).
  - split; [split; [intros E; discriminate E|intros []]|].
    intros e E. injection E as <-. left. reflexivity.
Qed.

(** Upstream answers 204 to the start. *)
Lemma post_returns_no_error_iff_scenario :
  fst (StartCharge (Scenario.env [] Scenario.charging None 204)
         (Scenario.adapter any_nil None) tt) = None.
Proof.
  refine (proj2 (proj1 (proj2 (post_returns_no_error_iff unit Z Config
            (Scenario.env [] Scenario.charging None 204)
            (Scenario.adapter any_nil None)
            "https://api-eu.tronity.io/v1/vehicles/5f1a/charge_start"
            tt tt (inl {| http.StatusCode := 204 |}) eq_refl))) _).
  left. cbn. lia.
Defined.

(** ** The vehicle the constructor settles on *)

(** The loop either leaves the id it started with or the id of a listed
    vehicle whose VIN is [U]. *)
Lemma select_loop_In (U : string) (listed : list tronity.Vehicle) :
  forall id0,
  fold_left
    (fun id vehicle =>
       if (tronity.VIN vehicle =? U)%string then tronity.ID vehicle else id)
    listed id0 = id0 \/
  exists vehicle,
    In vehicle listed /\ tronity.VIN vehicle = U /\
    tronity.ID vehicle =
      fold_left
        (fun id vehicle =>
           if (tronity.VIN vehicle =? U)%string then tronity.ID vehicle else id)
        listed id0.
Proof.
  induction listed as [|x l IH]; intros id0; cbn [fold_left];
    [left; reflexivity|].
  destruct (String.eqb_spec (tronity.VIN x) U) as [E|E].
  - destruct (IH (tronity.ID x)) as [Hx|(y & Hy & HV & HI)].
    + right. exists x. split; [left; reflexivity|].
      split; [exact E|symmetry; exact Hx].
    + right. exists y. split; [right; exact Hy|]. split; assumption.
  - destruct (IH id0) as [Hx|(y & Hy & HV & HI)]; [left; exact Hx|].
    right. exists y. split; [right; exact Hy|]. split; assumption.
Qed.

Lemma select_vid_In {World R Other : Type} (env : Env World R Other)
  (configured : string) (listed : list tronity.Vehicle) :
  select_vid env configured listed <> "" ->
  exists vehicle,
    In vehicle listed /\
    tronity.ID vehicle = select_vid env configured listed /\
    (configured = "" /\ listed = [vehicle] \/
     tronity.VIN vehicle = ToUpper env configured).
Proof.
  unfold select_vid.
  destruct (String.eqb_spec configured "") as [E|E],
    (Nat.eqb_spec (List.length listed) 1) as [L|L]; cbn [andb]; intros H.
  1: { destruct listed as [|x [|y l]]; try discriminate L.
       exists x. split; [left; reflexivity|]. split; [reflexivity|].
       left. split; [exact E|reflexivity]. }
  all: destruct (select_loop_In (ToUpper env configured) listed "")
         as [Hx|(y & Hy & HV & HI)]; [contradiction|];
       exists y; split; [exact Hy|]; split; [exact HI|right; exact HV].
Qed.

Lemma last_map_const {A B : Type} (f : A -> B) (l : list A) (c d : B) :
  l <> [] -> (forall y, In y l -> f y = c) -> last (map f l) d = c.
Proof.
  induction l as [|a l IH]; intros Hne Hall; [contradiction|].
  destruct l as [|b l'].
  - cbn. apply Hall. left. reflexivity.
  - change (last (map f (a :: b :: l')) d) with (last (map f (b :: l')) d).
    apply IH; [discriminate|]. intros y Hy. apply Hall. right. exact Hy.
Qed.

(** X6: the adapter the constructor returns is for a vehicle upstream
    listed: its id is not empty and is the id of a listed vehicle, which is
    the only one listed when no VIN is configured, or has
    [strings.ToUpper] of the configured VIN as its VIN. *)
Theorem constructed_vid_is_listed (World R Other : Type)
  (env : Env World R Other) (other : Other) (w w' : World)
  (v : Tronity World R) (err : option error) :
  NewTronityFromConfig env other w = ((Some v, err), w') ->
  exists cc conf listed vehicle,
    DecodeOther env other (default_config env) = (cc, None) /\
    vehicles env (authenticated env cc conf (Now env w)) w
      = ((listed, None), w') /\
    In vehicle listed /\
    tronity.ID vehicle = vid v /\
    vid v <> "" /\
    (VIN cc = "" /\ listed = [vehicle] \/
     tronity.VIN vehicle = ToUpper env (VIN cc)).
Proof.
  intros H.
  destruct (NewTronityFromConfig_Some env _ _ _ _ _ H)
    as (cc & conf & listed & Hr & Hv & Hid & -> & _).
  destruct (select_vid_In env _ _ Hid) as (x & Hx & HI & Hcase).
  exists cc, conf, listed, x.
  split; [exact (proj1 Hr)|]. split; [exact Hv|]. split; [exact Hx|].
  split; [exact HI|]. split; [exact Hid|exact Hcase].
Qed.

(** A VIN configured in lower case, two vehicles listed. *)
Lemma constructed_vid_is_listed_scenario :
  exists cc conf listed vehicle,
    DecodeOther
      (Scenario.env
         [Scenario.car "a" "WVWZZZ1JZXW000001";
          Scenario.car "b" "5YJ3E1EA7KF000316"]
         Scenario.charging None 200)
      (Scenario.config Scenario.no_tokens "5yj3e1ea7kf000316")
      (default_config
         (Scenario.env
            [Scenario.car "a" "WVWZZZ1JZXW000001";
             Scenario.car "b" "5YJ3E1EA7KF000316"]
            Scenario.charging None 200))
    = (cc, None) /\
    vehicles
      (Scenario.env
         [Scenario.car "a" "WVWZZZ1JZXW000001";
          Scenario.car "b" "5YJ3E1EA7KF000316"]
         Scenario.charging None 200)
      (authenticated
         (Scenario.env
            [Scenario.car "a" "WVWZZZ1JZXW000001";
             Scenario.car "b" "5YJ3E1EA7KF000316"]
            Scenario.charging None 200)
         cc conf (63771148800 * 1000000000)) tt
    = ((listed, None), tt) /\
    In vehicle listed /\
    tronity.ID vehicle = "b" /\
    "b" <> "" /\
    (VIN cc = "" /\ listed = [vehicle] \/
     tronity.VIN vehicle
     = ToUpper
         (Scenario.env
            [Scenario.car "a" "WVWZZZ1JZXW000001";
             Scenario.car "b" "5YJ3E1EA7KF000316"]
            Scenario.charging None 200)
         (VIN cc)).
Proof.
  exact (constructed_vid_is_listed unit Z Config
           (Scenario.env
              [Scenario.car "a" "WVWZZZ1JZXW000001";
               Scenario.car "b" "5YJ3E1EA7KF000316"]
              Scenario.charging None 200)
           (Scenario.config Scenario.no_tokens "5yj3e1ea7kf000316") tt tt
           (assembled
              (Scenario.env
                 [Scenario.car "a" "WVWZZZ1JZXW000001";
                  Scenario.car "b" "5YJ3E1EA7KF000316"]
                 Scenario.charging None 200)
              (Scenario.config Scenario.no_tokens "5yj3e1ea7kf000316")
              (Scenario.conf "id" "secret")
              (63771148800 * 1000000000)
              [Scenario.car "a" "WVWZZZ1JZXW000001";
               Scenario.car "b" "5YJ3E1EA7KF000316"])
           None eq_refl).
Defined.

(** A listed vehicle whose VIN is [strings.ToUpper] of the configured one
    gives the id, provided the vehicles that share its VIN share its id. *)
Lemma select_vid_match {World R Other : Type} (env : Env World R Other)
  (configured : string) (listed : list tronity.Vehicle)
  (vehicle : tronity.Vehicle) :
  In vehicle listed ->
  tronity.VIN vehicle = ToUpper env configured ->
  (forall other, In other listed ->
     tronity.VIN other = tronity.VIN vehicle ->
     tronity.ID other = tronity.ID vehicle) ->
  select_vid env configured listed = tronity.ID vehicle.
Proof.
  intros Hin HV Hsame.
  destruct (String.eqb_spec configured "") as [E|E],
    (Nat.eqb_spec (List.length listed) 1) as [L|L].
  1: { destruct listed as [|x [|y l]]; try discriminate L.
       destruct Hin as [<-|[]]. rewrite E. reflexivity. }
  all: rewrite select_vid_loop by (intros [? ?]; contradiction);
       apply last_map_const;
       [ intros Hnil;
         assert (Hm : In vehicle (matching env configured listed))
           by (apply matching_In; split; assumption);
         rewrite Hnil in Hm; exact Hm
       | intros y Hy; apply matching_In in Hy; destruct Hy as [Hy HVy];
         apply Hsame; [exact Hy|rewrite HVy, HV; reflexivity] ].
Qed.

(** X7: a listed vehicle with an id, whose VIN is [strings.ToUpper] of the
    configured VIN, is found, whatever the letter case of the configured
    VIN: the constructor returns an adapter for it, provided the listed
    vehicles that share its VIN share its id. *)
Theorem configured_VIN_in_any_case_is_found (World R Other : Type)
  (env : Env World R Other) (other : Other) (w w' : World) (cc : Config)
  (conf : oauth2.Config) (listed : list tronity.Vehicle)
  (vehicle : tronity.Vehicle) :
  reaches_listing env other w cc conf ->
  vehicles env (authenticated env cc conf (Now env w)) w
    = ((listed, None), w') ->
  In vehicle listed ->
  tronity.VIN vehicle = ToUpper env (VIN cc) ->
  (forall other, In other listed ->
     tronity.VIN other = tronity.VIN vehicle ->
     tronity.ID other = tronity.ID vehicle) ->
  tronity.ID vehicle <> "" ->
  exists v,
    NewTronityFromConfig env other w = ((Some v, None), w') /\
    vid v = tronity.ID vehicle.
Proof.
  intros Hr Hv Hin HV Hsame Hid.
  rewrite (NewTronityFromConfig_listing env _ _ _ _ _ _ _ Hr Hv).
  pose proof (select_vid_match env _ _ _ Hin HV Hsame) as Hsel.
  destruct (String.eqb_spec (select_vid env (VIN cc) listed) "") as [E|E];
    [rewrite Hsel in E; contradiction|].
  eexists. split; [reflexivity|exact Hsel].
Qed.

(** A VIN configured in mixed case. *)
Lemma configured_VIN_in_any_case_is_found_scenario :
  exists v,
    NewTronityFromConfig
      (Scenario.env
         [Scenario.car "a" "WVWZZZ1JZXW000001";
          Scenario.car "b" "5YJ3E1EA7KF000316"]
         Scenario.charging None 200)
      (Scenario.config Scenario.no_tokens "WvWzZz1jZxW000001") tt
    = ((Some v, None), tt) /\
    vid v = "a".
Proof.
  refine (configured_VIN_in_any_case_is_found unit Z Config
            (Scenario.env
               [Scenario.car "a" "WVWZZZ1JZXW000001";
                Scenario.car "b" "5YJ3E1EA7KF000316"]
               Scenario.charging None 200)
            (Scenario.config Scenario.no_tokens "WvWzZz1jZxW000001") tt tt
            (Scenario.config Scenario.no_tokens "WvWzZz1jZxW000001")
            (Scenario.conf "id" "secret")
            [Scenario.car "a" "WVWZZZ1JZXW000001";
             Scenario.car "b" "5YJ3E1EA7KF000316"]
            (Scenario.car "a" "WVWZZZ1JZXW000001") _ eq_refl _ eq_refl _ _).
  - repeat split.
  - left. reflexivity.
  - intros other [<-|[<-|[]]] H; [reflexivity|discriminate H].
  - discriminate.
Defined.

(** X8: without a configured VIN.  One listed vehicle with an id is taken
    whatever its VIN; one listed vehicle without an id, no listed vehicle,
    and several listed vehicles that all have a VIN end the construction
    with "vin not found". *)
Theorem construction_without_VIN (World R Other : Type)
  (env : Env World R Other) (other : Other) (w w' : World) (cc : Config)
  (conf : oauth2.Config) (listed : list tronity.Vehicle) :
  reaches_listing env other w cc conf ->
  vehicles env (authenticated env cc conf (Now env w)) w
    = ((listed, None), w') ->
  VIN cc = "" ->
  (forall vehicle, listed = [vehicle] -> tronity.ID vehicle <> "" ->
     exists v,
       NewTronityFromConfig env other w = ((Some v, None), w') /\
       vid v = tronity.ID vehicle) /\
  (forall vehicle, listed = [vehicle] -> tronity.ID vehicle = "" ->
     NewTronityFromConfig env other w
     = ((None, Some (errors.New "vin not found")), w')) /\
  (List.length listed <> 1%nat ->
   (forall vehicle, In vehicle listed -> tronity.VIN vehicle <> "") ->
   NewTronityFromConfig env other w
   = ((None, Some (errors.New "vin not found")), w')).
Proof.
  intros Hr Hv HVIN.
  rewrite (NewTronityFromConfig_listing env _ _ _ _ _ _ _ Hr Hv), HVIN.
  split; [|split].
  - intros vehicle -> Hid. rewrite select_vid_sole.
    destruct (String.eqb_spec (tronity.ID vehicle) "") as [E|E];
      [contradiction|].
    eexists. split; [reflexivity|]. cbn. rewrite HVIN. reflexivity.
  - intros vehicle -> Hid. rewrite select_vid_sole, Hid. reflexivity.
  - intros Hlen Hall.
    assert (Hsel : select_vid env "" listed = "").
    { unfold select_vid.
      destruct (Nat.eqb_spec (List.length listed) 1) as [L|L];
        [contradiction|]. cbn [String.eqb andb].
      rewrite ToUpper_nil.
      destruct (select_loop_In "" listed "") as [Hx|(y & Hy & HVy & _)];
        [exact Hx|]. exfalso. exact (Hall y Hy HVy). }
    rewrite Hsel. reflexivity.
Qed.

(** No VIN configured and two vehicles listed. *)
Lemma construction_without_VIN_scenario :
  NewTronityFromConfig
    (Scenario.env
       [Scenario.car "a" "WVWZZZ1JZXW000001";
        Scenario.car "b" "5YJ3E1EA7KF000316"]
       Scenario.charging None 200)
    (Scenario.config Scenario.no_tokens "") tt
  = ((None, Some (errors.New "vin not found")), tt).
Proof.
  refine (proj2 (proj2 (construction_without_VIN unit Z Config
            (Scenario.env
               [Scenario.car "a" "WVWZZZ1JZXW000001";
                Scenario.car "b" "5YJ3E1EA7KF000316"]
               Scenario.charging None 200)
            (Scenario.config Scenario.no_tokens "") tt tt
            (Scenario.config Scenario.no_tokens "")
            (Scenario.conf "id" "secret")
            [Scenario.car "a" "WVWZZZ1JZXW000001";
             Scenario.car "b" "5YJ3E1EA7KF000316"] _ eq_refl eq_refl)) _ _).
  - repeat split.
  - discriminate.
  - intros vehicle [<-|[<-|[]]]; discriminate.
Defined.

(** ** The adapter the constructor returns *)

(** X9: the transport of a returned adapter is never the plain one.  With
    incomplete tokens it is the app flow's, which starts from the empty
    token, so that no configured token is used and the error of the tokens
    fails nothing; with complete tokens it is the code flow's, over the
    configured tokens.  Either token source refreshes through the OAuth2
    configuration of the adapter. *)
Theorem constructed_transport_is_authenticated (World R Other : Type)
  (env : Env World R Other) (other : Other) (w w' : World)
  (v : Tronity World R) (err : option error) :
  NewTronityFromConfig env other w = ((Some v, err), w') ->
  exists cc,
    DecodeOther env other (default_config env) = (cc, None) /\
    (((exists e, Tokens_Error env (Tokens_ cc) = Some e) /\
      request.Transport (Helper v)
      = Some (RefreshTokenSource oauth2.zeroToken (oc v))) \/
     (Tokens_Error env (Tokens_ cc) = None /\
      request.Transport (Helper v)
      = Some (ConfigTokenSource (oc v)
                {| oauth2.AccessToken := Access (Tokens_ cc);
                   oauth2.RefreshToken := Refresh (Tokens_ cc);
                   oauth2.Expiry := Now env w |}))).
Proof.
  intros H.
  destruct (NewTronityFromConfig_Some env _ _ _ _ _ H)
    as (cc & conf & listed & Hr & _ & _ & -> & _).
  exists cc. split; [exact (proj1 Hr)|]. cbn. unfold token_source.
  destruct (Tokens_Error env (Tokens_ cc)) as [e|];
    [left; split; [exists e|]; reflexivity|right; split; reflexivity].
Qed.

(** An access token without a refresh token is not used. *)
Lemma constructed_transport_is_authenticated_scenario :
  request.Transport
    (Helper
       (assembled
          (Scenario.env [Scenario.car "a" "WVWZZZ1JZXW000001"]
             Scenario.charging None 200)
          (Scenario.config {| Access := "old-access"; Refresh := "" |} "")
          (Scenario.conf "id" "secret")
          (63771148800 * 1000000000)
          [Scenario.car "a" "WVWZZZ1JZXW000001"]))
  = Some (RefreshTokenSource oauth2.zeroToken (Scenario.conf "id" "secret")).
Proof.
  destruct (constructed_transport_is_authenticated unit Z Config
              (Scenario.env [Scenario.car "a" "WVWZZZ1JZXW000001"]
                 Scenario.charging None 200)
              (Scenario.config {| Access := "old-access"; Refresh := "" |} "")
              tt tt
              (assembled
                 (Scenario.env [Scenario.car "a" "WVWZZZ1JZXW000001"]
                    Scenario.charging None 200)
                 (Scenario.config
                    {| Access := "old-access"; Refresh := "" |} "")
                 (Scenario.conf "id" "secret")
                 (63771148800 * 1000000000)
                 [Scenario.car "a" "WVWZZZ1JZXW000001"])
              None eq_refl) as (cc & Hd & [[_ Ht]|[Hnone _]]).
  - exact Ht.
  - injection Hd as <-. discriminate Hnone.
Defined.

(** X10: the getter of a returned adapter is the cache of package provider
    over the bulk api of that very adapter, with its vehicle id and its
    authenticated transport, for the configured cache time, which is the
    default interval when the configuration leaves it alone. *)
Theorem constructed_getter_is_cached_bulk (World R Other : Type)
  (env : Env World R Other) (other : Other) (w w' : World)
  (v : Tronity World R) (err : option error) :
  NewTronityFromConfig env other w = ((Some v, err), w') ->
  exists cc,
    DecodeOther env other (default_config env) = (cc, None) /\
    bulkG v = NewCached env (bulk env v) (Cache cc) /\
    (Cache cc = Cache (default_config env) ->
     bulkG v = NewCached env (bulk env v) (interval env)).
Proof.
  intros H.
  destruct (NewTronityFromConfig_Some env _ _ _ _ _ H)
    as (cc & conf & listed & Hr & _ & _ & -> & _).
  exists cc. split; [exact (proj1 Hr)|].
  assert (Hg : bulkG (assembled env cc conf (Now env w) listed)
               = NewCached env
                   (bulk env (assembled env cc conf (Now env w) listed))
                   (Cache cc)) by reflexivity.
  split; [exact Hg|]. intros Hc. rewrite Hg, Hc. reflexivity.
Qed.

(** With the cache that passes every call through, the getter of the
    returned adapter is its bulk api. *)
Lemma constructed_getter_is_cached_bulk_scenario :
  exists cc,
    DecodeOther
      (Scenario.env [Scenario.car "a" "WVWZZZ1JZXW000001"]
         Scenario.charging None 200)
      (Scenario.config Scenario.no_tokens "")
      (default_config
         (Scenario.env [Scenario.car "a" "WVWZZZ1JZXW000001"]
            Scenario.charging None 200))
    = (cc, None) /\
    bulkG
      (assembled
         (Scenario.env [Scenario.car "a" "WVWZZZ1JZXW000001"]
            Scenario.charging None 200)
         (Scenario.config Scenario.no_tokens "")
         (Scenario.conf "id" "secret")
         (63771148800 * 1000000000)
         [Scenario.car "a" "WVWZZZ1JZXW000001"])
    = bulk
        (Scenario.env [Scenario.car "a" "WVWZZZ1JZXW000001"]
           Scenario.charging None 200)
        (assembled
           (Scenario.env [Scenario.car "a" "WVWZZZ1JZXW000001"]
              Scenario.charging None 200)
           (Scenario.config Scenario.no_tokens "")
           (Scenario.conf "id" "secret")
           (63771148800 * 1000000000)
           [Scenario.car "a" "WVWZZZ1JZXW000001"]).
Proof.
  destruct (constructed_getter_is_cached_bulk unit Z Config
              (Scenario.env [Scenario.car "a" "WVWZZZ1JZXW000001"]
                 Scenario.charging None 200)
              (Scenario.config Scenario.no_tokens "") tt tt
              (assembled
                 (Scenario.env [Scenario.car "a" "WVWZZZ1JZXW000001"]
                    Scenario.charging None 200)
                 (Scenario.config Scenario.no_tokens "")
                 (Scenario.conf "id" "secret")
                 (63771148800 * 1000000000)
                 [Scenario.car "a" "WVWZZZ1JZXW000001"])
              None eq_refl) as (cc & Hd & Hg & _).
  exists cc. split; [exact Hd|exact Hg].
Defined.
